(** * gogdb index rebuild: [gogdb/updater/indexdb.py]

    A shallow embedding of the indexer that rebuilds the three tables
    [products], [changelog] and [changelog_summary] of the index database
    from the primary store, and the properties its specification states.

    Python integers are unbounded and are modelled by [Z]; Python strings
    are modelled by their UTF-8 bytes ([string]), whose byte-wise order is
    the code-point order Python's [sorted] uses. *)

From Stdlib Require Import List String Ascii ZArith QArith Lia Bool.
From Stdlib Require Import Sorting.Sorted Sorting.Permutation ListSet DecimalString.
From Stdlib Require Import Structures.OrderedTypeEx.
From Stdlib Require DecimalPos.
Import ListNotations.

#[local] Set Warnings "-register-all".

Local Open Scope string_scope.
Local Open Scope Z_scope.
Local Open Scope list_scope.

(** ** Data model of the primary store ([gogdb.core.model])

    Modelled from the spec: the dataclasses of [gogdb.core.model] are
    declared outside [indexdb.py].  The records below carry the
    attributes the indexer reads, with the types the specification gives
    them, and the product id the specification lists among the
    attributes of a change record. *)

(** A [datetime] is used as a dictionary key, so only its identity matters:
    it is modelled by its instant, in microseconds since the epoch. *)
Definition datetime := Z.

Module Product.
Record t := mk {
  id : Z;
  title : string;
  image_logo : string;
  type : string;
  comp_systems : list string;
  rank_bestselling : option Z
}.
End Product.

Module BonusRecord.
Record t := mk { bonus_type : string }.
End BonusRecord.

Module DownloadRecord.
Record t := mk {
  dl_type : string;
  dl_new_bonus : option BonusRecord.t;
  dl_old_bonus : option BonusRecord.t
}.
End DownloadRecord.

Module PropertyRecord.
Record t := mk { property_name : string }.
End PropertyRecord.

(** The payload attributes of a change record are [None] in Python when
    the record does not carry them. *)
Module ChangeRecord.
Record t := mk {
  product_id : Z;
  timestamp : datetime;
  action : string;
  category : string;
  download_record : option DownloadRecord.t;
  property_record : option PropertyRecord.t
}.
End ChangeRecord.

(** Modelled from the spec: the dataclass [model.IndexChange] is declared
    outside [indexdb.py].  The indexer builds it from six keyword
    arguments and reads [dl_type], [bonus_type] and [property_name] back
    whether or not it assigned them, so these three fields default to
    [None] (the nullable columns of the specification). *)
Module IndexChange.
Record t := mk {
  id : Z;
  title : string;
  timestamp : datetime;
  action : string;
  category : string;
  record : ChangeRecord.t;
  dl_type : option string;
  bonus_type : option string;
  property_name : option string
}.

Definition new (id : Z) (title : string) (timestamp : datetime)
    (action category : string) (record : ChangeRecord.t) : t :=
  mk id title timestamp action category record None None None.

Definition set_dl_type (v : string) (c : t) : t :=
  mk (id c) (title c) (timestamp c) (action c) (category c) (record c)
     (Some v) (bonus_type c) (property_name c).

Definition set_bonus_type (v : string) (c : t) : t :=
  mk (id c) (title c) (timestamp c) (action c) (category c) (record c)
     (dl_type c) (Some v) (property_name c).

Definition set_property_name (v : string) (c : t) : t :=
  mk (id c) (title c) (timestamp c) (action c) (category c) (record c)
     (dl_type c) (bonus_type c) (Some v).
End IndexChange.

(** ** Rows of the index database (the [CREATE TABLE] statements of [init_db]) *)

Module ProductsRow.
Record t := mk {
  product_id : Z;
  title : string;
  image_logo : string;
  product_type : string;
  comp_systems : string;
  sale_rank : Z;
  search_title : string
}.
End ProductsRow.

(** The [timestamp] columns are [REAL]: they hold the float returned by
    [datetime.timestamp()].  A finite float is a rational number. *)
Module ChangelogRow.
Record t := mk {
  product_id : Z;
  product_title : string;
  timestamp : Q;
  action : string;
  category : string;
  dl_type : option string;
  bonus_type : option string;
  property_name : option string;
  serialized_record : string
}.
End ChangelogRow.

Module SummaryRow.
Record t := mk {
  product_id : Z;
  product_title : string;
  timestamp : Q;
  categories : string
}.
End SummaryRow.

(** ** Exceptions *)

Inductive exn :=
| AttributeError     (* attribute access on [None] *)
| TypeError          (* subscript of [None] *)
| OperationalError.  (* raised by the database engine *)

Inductive result (A : Type) :=
| Ok (a : A)
| Raise (e : exn).
Arguments Ok {A} a.
Arguments Raise {A} e.

Definition is_ok {A} (r : result A) : bool :=
  match r with Ok _ => true | Raise _ => false end.

(** [o.attr] where [o] is the value of an optional attribute. *)
Definition deref {A} (o : option A) : result A :=
  match o with
  | Some a => Ok a
  | None => Raise AttributeError
  end.

(** [row[0]] where [row] is the answer of [fetchone()]. *)
Definition subscript {A} (row : option A) : result A :=
  match row with
  | Some a => Ok a
  | None => Raise TypeError
  end.

(** ** Python built-ins used by the indexer *)

(** [sorted(xs)]: the ascending rearrangement of [xs] under the order
    [leb].  Every use below sorts pairwise distinct keys, for which the
    ascending rearrangement is unique. *)
Fixpoint insort {A} (leb : A -> A -> bool) (x : A) (l : list A) : list A :=
  match l with
  | [] => [x]
  | y :: r => if leb x y then x :: l else y :: insort leb x r
  end.

Definition sorted {A} (leb : A -> A -> bool) (l : list A) : list A :=
  fold_right (insort leb) [] l.

(** [sep.join(xs)] *)
Definition join (sep : string) (xs : list string) : string :=
  String.concat sep xs.

(** [s.add(x)] on a [set] of strings, kept as a duplicate-free list. *)
Definition set_add_str (x : string) (s : list string) : list string :=
  set_add string_dec x s.

(** ** [json.dumps] *)

Module Json.

Inductive value :=
| JNull
| JBool (b : bool)
| JInt (z : Z)
| JStr (s : string)
| JList (l : list value)
| JDict (items : list (string * value)).

Definition dquote : ascii := "034"%char.
Definition backslash : ascii := "092"%char.

Definition hex_digit (n : nat) : ascii :=
  nth n (list_ascii_of_string "0123456789abcdef") "0"%char.

(** The character class [ESCAPE] of [json.encoder]: the control
    characters below U+0020, the backslash and the double quote. *)
Definition needs_escape (a : ascii) : bool :=
  (nat_of_ascii a <? 32)%nat || Ascii.eqb a backslash || Ascii.eqb a dquote.

(** [ESCAPE_DCT]: the two-character escapes, and [\u00xx] for the other
    control characters. *)
Definition escape_char (a : ascii) : string :=
  if Ascii.eqb a backslash then String backslash (String backslash "")
  else if Ascii.eqb a dquote then String backslash (String dquote "")
  else if Ascii.eqb a "008"%char then String backslash "b"
  else if Ascii.eqb a "012"%char then String backslash "f"
  else if Ascii.eqb a "010"%char then String backslash "n"
  else if Ascii.eqb a "013"%char then String backslash "r"
  else if Ascii.eqb a "009"%char then String backslash "t"
  else if (nat_of_ascii a <? 32)%nat then
    String backslash
      (String "u" (String "0" (String "0"
        (String (hex_digit (nat_of_ascii a / 16))
          (String (hex_digit (nat_of_ascii a mod 16)) "")))))
  else String a "".

Fixpoint escape (s : string) : string :=
  match s with
  | EmptyString => EmptyString
  | String a r => (escape_char a ++ escape r)%string
  end.

(** [encode_basestring], the string encoder chosen by
    [ensure_ascii=False]: only the characters of [ESCAPE] are replaced,
    every other character is copied. *)
Definition encode_basestring (s : string) : string :=
  String dquote (escape s ++ String dquote "")%string.

Definition encode_int (z : Z) : string :=
  DecimalString.NilEmpty.string_of_int (Z.to_int z).

Definition key_leb (a b : string * value) : bool :=
  String.leb (fst a) (fst b).

(** The effect of [sort_keys=True]: the items of every dictionary are
    visited in the order of [sorted(dct.items())]. *)
Fixpoint sort_keys (v : value) : value :=
  match v with
  | JList l => JList (map sort_keys l)
  | JDict items =>
      JDict (sorted key_leb (map (fun kv => (fst kv, sort_keys (snd kv))) items))
  | _ => v
  end.

(** The encoder proper, with the default separators [", "] and [": "]. *)
Fixpoint encode (v : value) : string :=
  match v with
  | JNull => "null"
  | JBool true => "true"
  | JBool false => "false"
  | JInt z => encode_int z
  | JStr s => encode_basestring s
  | JList l => ("[" ++ join ", " (map encode l) ++ "]")%string
  | JDict items =>
      ("{" ++ join ", "
                (map (fun kv =>
                        (encode_basestring (fst kv) ++ ": " ++ encode (snd kv))%string)
                     items) ++ "}")%string
  end.

(** [json.dumps(v, sort_keys=sk, ensure_ascii=False)] *)
Definition dumps (sk : bool) (v : value) : string :=
  encode (if sk then sort_keys v else v).

(** The strings of a document, keys and values, in the order in which
    [encode] emits them. *)
Fixpoint texts (v : value) : list string :=
  match v with
  | JStr s => [s]
  | JList l => flat_map texts l
  | JDict items => flat_map (fun kv => fst kv :: texts (snd kv)) items
  | _ => []
  end.

(** Every dictionary of the document lists its keys in ascending order. *)
Fixpoint keys_sorted (v : value) : Prop :=
  match v with
  | JList l => fold_right (fun x P => keys_sorted x /\ P) True l
  | JDict items =>
      Sorted (fun a b => String.leb a b = true) (map fst items)
      /\ fold_right (fun kv P => keys_sorted (snd kv) /\ P) True items
  | _ => True
  end.

(** Two documents with the same structure: equal scalars, lists equal
    element by element, dictionaries with the same key/value bindings
    in any order. *)
Inductive same : value -> value -> Prop :=
| same_null : same JNull JNull
| same_bool b : same (JBool b) (JBool b)
| same_int z : same (JInt z) (JInt z)
| same_str s : same (JStr s) (JStr s)
| same_list l l' : Forall2 same l l' -> same (JList l) (JList l')
| same_dict items mid items' :
    Forall2 (fun a b => fst a = fst b /\ same (snd a) (snd b)) items mid ->
    Permutation mid items' ->
    same (JDict items) (JDict items').

(** *** Reading a text back

    A reader for the grammar of JSON texts (RFC 8259) whose numbers are
    integers and whose [\u] escapes name a character of the basic plane
    other than a surrogate.  It answers [None] for every other text. *)

Definition is_ws (a : ascii) : bool :=
  Ascii.eqb a " " || Ascii.eqb a "009" || Ascii.eqb a "010" || Ascii.eqb a "013".

Fixpoint skip_ws (s : string) : string :=
  match s with
  | EmptyString => EmptyString
  | String a r => if is_ws a then skip_ws r else s
  end.

Definition is_digit (a : ascii) : bool :=
  (48 <=? nat_of_ascii a)%nat && (nat_of_ascii a <=? 57)%nat.

Definition hex_value (a : ascii) : option N :=
  let n := N_of_ascii a in
  if (48 <=? n)%N && (n <=? 57)%N then Some (n - 48)%N
  else if (97 <=? n)%N && (n <=? 102)%N then Some (n - 87)%N
  else if (65 <=? n)%N && (n <=? 70)%N then Some (n - 55)%N
  else None.

(** The UTF-8 bytes of a code point below U+10000. *)
Definition utf8 (n : N) : option string :=
  if (n <? 128)%N then Some (String (ascii_of_N n) "")
  else if (n <? 2048)%N then
    Some (String (ascii_of_N (192 + n / 64))
           (String (ascii_of_N (128 + n mod 64)) ""))
  else if (55296 <=? n)%N && (n <? 57344)%N then None
  else
    Some (String (ascii_of_N (224 + n / 4096))
           (String (ascii_of_N (128 + (n / 64) mod 64))
             (String (ascii_of_N (128 + n mod 64)) ""))).

Definition prepend (p : string) (o : option (string * string))
    : option (string * string) :=
  match o with
  | Some (str, rest) => Some ((p ++ str)%string, rest)
  | None => None
  end.

(** The string that follows an opening quote, and what follows its
    closing quote.  A control character must be escaped. *)
Fixpoint read_string (s : string) : option (string * string) :=
  match s with
  | EmptyString => None
  | String a r =>
      if Ascii.eqb a dquote then Some (EmptyString, r)
      else if Ascii.eqb a backslash then
        match r with
        | EmptyString => None
        | String c r1 =>
            if Ascii.eqb c dquote || Ascii.eqb c backslash || Ascii.eqb c "/"
            then prepend (String c "") (read_string r1)
            else if Ascii.eqb c "b" then prepend (String "008" "") (read_string r1)
            else if Ascii.eqb c "f" then prepend (String "012" "") (read_string r1)
            else if Ascii.eqb c "n" then prepend (String "010" "") (read_string r1)
            else if Ascii.eqb c "r" then prepend (String "013" "") (read_string r1)
            else if Ascii.eqb c "t" then prepend (String "009" "") (read_string r1)
            else if Ascii.eqb c "u" then
              match r1 with
              | String h1 (String h2 (String h3 (String h4 r2))) =>
                  match hex_value h1, hex_value h2, hex_value h3, hex_value h4 with
                  | Some n1, Some n2, Some n3, Some n4 =>
                      match utf8 (((n1 * 16 + n2) * 16 + n3) * 16 + n4)%N with
                      | Some bytes => prepend bytes (read_string r2)
                      | None => None
                      end
                  | _, _, _, _ => None
                  end
              | _ => None
              end
            else None
        end
      else if (nat_of_ascii a <? 32)%nat then None
      else prepend (String a "") (read_string r)
  end.

Fixpoint span_digits (s : string) : string * string :=
  match s with
  | EmptyString => (EmptyString, EmptyString)
  | String a r =>
      if is_digit a
      then (String a (fst (span_digits r)), snd (span_digits r))
      else (EmptyString, s)
  end.

(** The text goes on with a fraction or an exponent. *)
Definition starts_fraction (s : string) : bool :=
  match s with
  | EmptyString => false
  | String a _ => Ascii.eqb a "." || Ascii.eqb a "e" || Ascii.eqb a "E"
  end.

(** The digits of an integer, without a leading zero; no fraction and
    no exponent may follow. *)
Definition read_digits (negative : bool) (s : string) : option (Z * string) :=
  match NilEmpty.uint_of_string (fst (span_digits s)) with
  | Some u =>
      if negb (Decimal.uint_beq u Decimal.Nil)
         && Decimal.uint_beq (Decimal.unorm u) u
         && negb (starts_fraction (snd (span_digits s)))
      then Some (if negative then - Z.of_uint u else Z.of_uint u,
                 snd (span_digits s))
      else None
  | None => None
  end.

(** An integer: an optional minus sign and its digits. *)
Definition read_number (s : string) : option (Z * string) :=
  match s with
  | String a r => if Ascii.eqb a "-" then read_digits true r else read_digits false s
  | EmptyString => None
  end.

Fixpoint strip_prefix (p s : string) : option string :=
  match p, s with
  | EmptyString, _ => Some s
  | String a p', String b s' => if Ascii.eqb a b then strip_prefix p' s' else None
  | String _ _, EmptyString => None
  end.

Definition read_literal (s : string) : option (value * string) :=
  match strip_prefix "null" s with
  | Some rest => Some (JNull, rest)
  | None =>
      match strip_prefix "true" s with
      | Some rest => Some (JBool true, rest)
      | None =>
          match strip_prefix "false" s with
          | Some rest => Some (JBool false, rest)
          | None => None
          end
      end
  end.

(** A value, the elements of a list up to its closing bracket, and the
    members of a dictionary up to its closing brace; [fuel] bounds the
    number of nested calls. *)
Fixpoint parse_value (fuel : nat) (s : string) {struct fuel}
    : option (value * string) :=
  match fuel with
  | O => None
  | S fuel' =>
      match skip_ws s with
      | EmptyString => None
      | String a r =>
          if is_digit a || Ascii.eqb a "-" then
            option_map (fun zr => (JInt (fst zr), snd zr)) (read_number (String a r))
          else if Ascii.eqb a dquote then
            option_map (fun sr => (JStr (fst sr), snd sr)) (read_string r)
          else if Ascii.eqb a "[" then
            match skip_ws r with
            | EmptyString => None
            | String b r' =>
                if Ascii.eqb b "]" then Some (JList [], r')
                else option_map (fun lr => (JList (fst lr), snd lr))
                                (parse_elements fuel' r)
            end
          else if Ascii.eqb a "{" then
            match skip_ws r with
            | EmptyString => None
            | String b r' =>
                if Ascii.eqb b "}" then Some (JDict [], r')
                else option_map (fun lr => (JDict (fst lr), snd lr))
                                (parse_members fuel' r)
            end
          else read_literal (String a r)
      end
  end

with parse_elements (fuel : nat) (s : string) {struct fuel}
    : option (list value * string) :=
  match fuel with
  | O => None
  | S fuel' =>
      match parse_value fuel' s with
      | None => None
      | Some (v, rest) =>
          match skip_ws rest with
          | EmptyString => None
          | String b r =>
              if Ascii.eqb b "," then
                option_map (fun lr => (v :: fst lr, snd lr)) (parse_elements fuel' r)
              else if Ascii.eqb b "]" then Some ([v], r)
              else None
          end
      end
  end

with parse_members (fuel : nat) (s : string) {struct fuel}
    : option (list (string * value) * string) :=
  match fuel with
  | O => None
  | S fuel' =>
      match skip_ws s with
      | EmptyString => None
      | String q r =>
          if Ascii.eqb q dquote then
            match read_string r with
            | None => None
            | Some (key, r1) =>
                match skip_ws r1 with
                | EmptyString => None
                | String c r2 =>
                    if Ascii.eqb c ":" then
                      match parse_value fuel' r2 with
                      | None => None
                      | Some (v, r3) =>
                          match skip_ws r3 with
                          | EmptyString => None
                          | String b r4 =>
                              if Ascii.eqb b "," then
                                option_map (fun lr => ((key, v) :: fst lr, snd lr))
                                           (parse_members fuel' r4)
                              else if Ascii.eqb b "}" then Some ([(key, v)], r4)
                              else None
                          end
                      end
                    else None
                end
            end
          else None
      end
  end.

(** [json.loads(s)]: the one value of the text, which nothing but white
    space may follow. *)
Definition loads (fuel : nat) (s : string) : option value :=
  match parse_value fuel s with
  | Some (v, rest) =>
      match skip_ws rest with
      | EmptyString => Some v
      | String _ _ => None
      end
  | None => None
  end.

(** What may follow a value inside a text: nothing, a comma, or the
    closing bracket or brace of the enclosing value. *)
Definition delimited (s : string) : bool :=
  match s with
  | EmptyString => true
  | String a _ => Ascii.eqb a "," || Ascii.eqb a "]" || Ascii.eqb a "}"
  end.

(** A number of nested calls that is enough for [parse_value] to read
    the text of a document. *)
Fixpoint fuel_of (v : value) : nat :=
  match v with
  | JList l => S (fold_right (fun x n => S (Nat.max (fuel_of x) n)) O l)
  | JDict items =>
      S (fold_right (fun kv n => S (Nat.max (fuel_of (snd kv)) n)) O items)
  | _ => 1
  end.

(** [doc[key]] on the dictionary [json.loads] builds, in which the last
    binding of a key wins; [None] when there is no such binding. *)
Definition get (key : string) (v : value) : option value :=
  match v with
  | JDict items =>
      option_map snd (find (fun kv => String.eqb (fst kv) key) (rev items))
  | _ => None
  end.

(** [doc[k1][k2]...] *)
Fixpoint path (keys : list string) (v : value) : option value :=
  match keys with
  | [] => Some v
  | key :: keys' =>
      match get key v with
      | Some v' => path keys' v'
      | None => None
      end
  end.

(** The reader gives a document back from its text, whatever delimiter
    follows it. *)
Definition round_trip (v : value) : Prop :=
  forall (fuel : nat) (rest : string),
    (fuel_of v <= fuel)%nat -> delimited rest = true ->
    parse_value fuel (encode v ++ rest) = Some (v, rest).

End Json.

(** ** The index database *)

Inductive table := tbl_products | tbl_changelog | tbl_changelog_summary.

(** What the database file holds: for each table its rows in insertion
    order, or [None] while the table has not been created, and the names
    of the indexes. *)
Module Db.
Record t := mk {
  t_products : option (list ProductsRow.t);
  t_changelog : option (list ChangelogRow.t);
  t_summary : option (list SummaryRow.t);
  indexes : list string
}.

(** A file that [connect] has just created. *)
Definition empty : t := mk None None None [].

Definition has_table (tb : table) (d : t) : bool :=
  match tb with
  | tbl_products => match t_products d with Some _ => true | None => false end
  | tbl_changelog => match t_changelog d with Some _ => true | None => false end
  | tbl_changelog_summary => match t_summary d with Some _ => true | None => false end
  end.

Definition set_products (v : list ProductsRow.t) (d : t) : t :=
  mk (Some v) (t_changelog d) (t_summary d) (indexes d).
Definition set_changelog (v : list ChangelogRow.t) (d : t) : t :=
  mk (t_products d) (Some v) (t_summary d) (indexes d).
Definition set_summary (v : list SummaryRow.t) (d : t) : t :=
  mk (t_products d) (t_changelog d) (Some v) (indexes d).

Definition clear (tb : table) (d : t) : t :=
  match tb with
  | tbl_products => set_products [] d
  | tbl_changelog => set_changelog [] d
  | tbl_changelog_summary => set_summary [] d
  end.

Definition count (tb : table) (d : t) : option Z :=
  match tb with
  | tbl_products => option_map (fun l => Z.of_nat (List.length l)) (t_products d)
  | tbl_changelog => option_map (fun l => Z.of_nat (List.length l)) (t_changelog d)
  | tbl_changelog_summary => option_map (fun l => Z.of_nat (List.length l)) (t_summary d)
  end.
End Db.

(** The statements the indexer sends through [cur.execute]. *)
Inductive statement :=
| CREATE_TABLE (tb : table)
| CREATE_INDEX (name : string) (tb : table)
| BEGIN_TRANSACTION
| END_TRANSACTION
| DELETE_FROM (tb : table)
| INSERT_INTO_products (r : ProductsRow.t)
| INSERT_INTO_changelog (r : ChangelogRow.t)
| INSERT_INTO_changelog_summary (r : SummaryRow.t)
| SELECT_COUNT (tb : table).

(** One data statement applied to the contents the connection sees:
    the new contents and the row to fetch, or [None] when the engine
    rejects the statement (missing table, table or index already there). *)
Definition run_statement (s : statement) (d : Db.t) : option (Db.t * option Z) :=
  match s with
  | CREATE_TABLE tb =>
      if Db.has_table tb d then None else Some (Db.clear tb d, None)
  | CREATE_INDEX name tb =>
      if Db.has_table tb d && negb (existsb (String.eqb name) (Db.indexes d))
      then Some (Db.mk (Db.t_products d) (Db.t_changelog d) (Db.t_summary d)
                       (Db.indexes d ++ [name]), None)
      else None
  | DELETE_FROM tb =>
      if Db.has_table tb d then Some (Db.clear tb d, None) else None
  | INSERT_INTO_products r =>
      option_map (fun l => (Db.set_products (l ++ [r]) d, None)) (Db.t_products d)
  | INSERT_INTO_changelog r =>
      option_map (fun l => (Db.set_changelog (l ++ [r]) d, None)) (Db.t_changelog d)
  | INSERT_INTO_changelog_summary r =>
      option_map (fun l => (Db.set_summary (l ++ [r]) d, None)) (Db.t_summary d)
  | SELECT_COUNT tb =>
      option_map (fun n => (d, Some n)) (Db.count tb d)
  | BEGIN_TRANSACTION | END_TRANSACTION => None
  end.

(** A connection opened with [isolation_level=None]: outside a
    transaction every statement is committed on its own; between [BEGIN]
    and [END] the statements work on [txn], a private copy that replaces
    [durable] at [END] and is dropped when the connection goes away
    before.  [fail_after = Some n] lets [n] more statements through and
    makes the engine fail the next one with an I/O error. *)
Module Conn.
Record t := mk {
  durable : Db.t;
  txn : option Db.t;
  fail_after : option nat
}.
End Conn.

(** ** Computations on a connection that may raise *)

Definition IO (A : Type) : Type := Conn.t -> result A * Conn.t.

Definition ret {A} (a : A) : IO A := fun c => (Ok a, c).

Definition raise {A} (e : exn) : IO A := fun c => (Raise e, c).

Definition bind {A B} (m : IO A) (k : A -> IO B) : IO B :=
  fun c =>
    match m c with
    | (Ok a, c') => k a c'
    | (Raise e, c') => (Raise e, c')
    end.

Definition lift {A} (r : result A) : IO A := fun c => (r, c).

Declare Scope io_scope.
Delimit Scope io_scope with io.
Notation "x <- m ;; k" := (bind m (fun x => k))
  (at level 61, m at next level, right associativity) : io_scope.
Notation "m ;; k" := (bind m (fun _ => k))
  (at level 61, right associativity) : io_scope.
Local Open Scope io_scope.

(** [for x in xs: body(x)] *)
Fixpoint for_each {A} (xs : list A) (body : A -> IO unit) : IO unit :=
  match xs with
  | [] => ret tt
  | x :: rest => body x ;; for_each rest body
  end.

(** [await cur.execute(s)] *)
Definition execute (s : statement) : IO (option Z) := fun c =>
  match Conn.fail_after c with
  | Some O => (Raise OperationalError, c)
  | budget =>
      let budget' := option_map Nat.pred budget in
      match s, Conn.txn c with
      | BEGIN_TRANSACTION, None =>
          (Ok None, Conn.mk (Conn.durable c) (Some (Conn.durable c)) budget')
      | BEGIN_TRANSACTION, Some w =>
          (Raise OperationalError, Conn.mk (Conn.durable c) (Some w) budget')
      | END_TRANSACTION, Some w =>
          (Ok None, Conn.mk w None budget')
      | END_TRANSACTION, None =>
          (Raise OperationalError, Conn.mk (Conn.durable c) None budget')
      | _, Some w =>
          match run_statement s w with
          | Some (w', row) => (Ok row, Conn.mk (Conn.durable c) (Some w') budget')
          | None => (Raise OperationalError, Conn.mk (Conn.durable c) (Some w) budget')
          end
      | _, None =>
          match run_statement s (Conn.durable c) with
          | Some (d', row) => (Ok row, Conn.mk d' None budget')
          | None => (Raise OperationalError, Conn.mk (Conn.durable c) None budget')
          end
      end
  end.

(** ** The primary store ([gogdb.core.storage]) *)

(** [db.ids.load()], [db.product.load(id)] and [db.changelog.load(id)];
    the loaders answer [None] for an id they hold nothing for. *)
Module Storage.
Record t := mk {
  ids : list Z;
  product : Z -> option Product.t;
  changelog : Z -> option (list ChangeRecord.t)
}.
(** Modelled from the spec: [storage.json_encoder], the [default] hook
    of the [json.dumps] call, is defined outside [indexdb.py].  The
    specification asks for a text whose values match the structure of
    the change record, nested payloads included: the document is a
    dictionary with one key per attribute of the record (the product id,
    the timestamp, the action, the category and the two payloads), and a
    payload is a dictionary of its own attributes.  The keys are the
    names under which [index_changelog] reads the attributes, and
    [product_id] for the product id.  The specification
    fixes neither how a timestamp is written nor whether an attribute
    that is [None] is written as [null] or left out: [json_timestamp]
    and [omit_none] stand for these two choices. *)
Definition attribute {A} (omit_none : bool) (key : string)
    (f : A -> Json.value) (o : option A) : list (string * Json.value) :=
  match o with
  | Some a => [(key, f a)]
  | None => if omit_none then [] else [(key, Json.JNull)]
  end.

(** What a document holds at an attribute that is [None]. *)
Definition absent (omit_none : bool) : option Json.value :=
  if omit_none then None else Some Json.JNull.

(** The keys of the document of a change record. *)
Definition attribute_names : list string :=
  ["product_id"; "timestamp"; "action"; "category";
   "download_record"; "property_record"].

Definition encode_bonus (b : BonusRecord.t) : Json.value :=
  Json.JDict [("bonus_type", Json.JStr (BonusRecord.bonus_type b))].

Definition encode_download (omit_none : bool) (d : DownloadRecord.t) : Json.value :=
  Json.JDict
    ([("dl_type", Json.JStr (DownloadRecord.dl_type d))]
     ++ attribute omit_none "dl_new_bonus" encode_bonus (DownloadRecord.dl_new_bonus d)
     ++ attribute omit_none "dl_old_bonus" encode_bonus (DownloadRecord.dl_old_bonus d)).

Definition encode_property (p : PropertyRecord.t) : Json.value :=
  Json.JDict [("property_name", Json.JStr (PropertyRecord.property_name p))].

Definition json_encoder (json_timestamp : datetime -> Json.value) (omit_none : bool)
    (changerec : ChangeRecord.t) : Json.value :=
  Json.JDict
    ([("product_id", Json.JInt (ChangeRecord.product_id changerec));
      ("timestamp", json_timestamp (ChangeRecord.timestamp changerec));
      ("action", Json.JStr (ChangeRecord.action changerec));
      ("category", Json.JStr (ChangeRecord.category changerec))]
     ++ attribute omit_none "download_record" (encode_download omit_none)
          (ChangeRecord.download_record changerec)
     ++ attribute omit_none "property_record" encode_property
          (ChangeRecord.property_record changerec)).
End Storage.

(** [summaries[timestamp].add(category)] on a
    [collections.defaultdict(set)]: a dictionary keeps its keys in the
    order of their first insertion. *)
Fixpoint summaries_add (summaries : list (datetime * list string))
    (timestamp : datetime) (category : string) : list (datetime * list string) :=
  match summaries with
  | [] => [(timestamp, set_add_str category [])]
  | (t, category_set) :: rest =>
      if Z.eqb t timestamp
      then (t, set_add_str category category_set) :: rest
      else (t, category_set) :: summaries_add rest timestamp category
  end.

(** ** Sample data

    A small primary store and index database on which the statements
    below are evaluated. *)
Module Sample.

Definition normalize_search (title : string) : string := title.
Definition compress_systems (systems : list string) : string := join "," systems.
Definition posix_timestamp (t : datetime) : Q := Qmake t 1000000.
Definition json_timestamp (t : datetime) : Json.value := Json.JStr (Json.encode_int t).
Definition json_encoder : ChangeRecord.t -> Json.value :=
  Storage.json_encoder json_timestamp false.

Definition ranked : Product.t :=
  Product.mk 1 "Gwent" "logo1" "game" ["windows"; "osx"] (Some 1).
Definition second : Product.t :=
  Product.mk 3 "Thronebreaker" "logo3" "game" ["windows"] (Some 2).
Definition unranked : Product.t :=
  Product.mk 4 "Artbook" "logo4" "dlc" [] None.

Definition wallpaper : BonusRecord.t := BonusRecord.mk "wallpapers".
Definition soundtrack : BonusRecord.t := BonusRecord.mk "audio".

Definition download_both : ChangeRecord.t :=
  ChangeRecord.mk 1 1000 "change" "download"
    (Some (DownloadRecord.mk "bonus" (Some wallpaper) (Some soundtrack))) None.
Definition download_new : ChangeRecord.t :=
  ChangeRecord.mk 1 1000 "add" "download"
    (Some (DownloadRecord.mk "bonus" (Some wallpaper) None)) None.
Definition download_old : ChangeRecord.t :=
  ChangeRecord.mk 1 1000 "rem" "download"
    (Some (DownloadRecord.mk "bonus" None (Some soundtrack))) None.
Definition download_plain : ChangeRecord.t :=
  ChangeRecord.mk 1 1000 "add" "download"
    (Some (DownloadRecord.mk "installer" None None)) None.
Definition property_change : ChangeRecord.t :=
  ChangeRecord.mk 1 1000 "change" "property" None (Some (PropertyRecord.mk "title")).
Definition build_change : ChangeRecord.t :=
  ChangeRecord.mk 1 2000 "add" "build" None None.

(** The two bytes of U+00E9 in UTF-8. *)
Definition e_acute : string := String "195"%char (String "169"%char "").

Definition quoted (s : string) : string :=
  String Json.dquote (s ++ String Json.dquote "").

(** A property record whose name holds a double quote, a backslash, a
    line feed and the character U+00E9, and the text [json.dumps] gives
    for the record. *)
Definition escaped_property : ChangeRecord.t :=
  ChangeRecord.mk 7 1000 "change" "property" None
    (Some (PropertyRecord.mk
             (String Json.dquote
                (String Json.backslash (String "010"%char e_acute))))).

Definition escaped_text : string :=
  ("{" ++ quoted "action" ++ ": " ++ quoted "change" ++ ", "
   ++ quoted "category" ++ ": " ++ quoted "property" ++ ", "
   ++ quoted "download_record" ++ ": null, "
   ++ quoted "product_id" ++ ": 7, "
   ++ quoted "property_record" ++ ": {"
   ++ quoted "property_name" ++ ": "
   ++ quoted (String Json.backslash (String Json.dquote
               (String Json.backslash (String Json.backslash
                 (String Json.backslash (String "n" e_acute))))))
   ++ "}, "
   ++ quoted "timestamp" ++ ": " ++ quoted "1000" ++ "}")%string.


(** A record of category [download] whose payload attribute is [None]. *)
Definition download_without_payload : ChangeRecord.t :=
  ChangeRecord.mk 1 3000 "add" "download" None None.

(** Ids 1, 2 and 3: product 2 is gone, product 3 has no changelog. *)
Definition store : Storage.t :=
  Storage.mk [1; 2; 3]
    (fun i => if Z.eqb i 1 then Some ranked
              else if Z.eqb i 3 then Some second else None)
    (fun i => if Z.eqb i 1 then Some [download_plain; property_change; build_change]
              else None).

(** A store with a download record that lacks its payload. *)
Definition broken_store : Storage.t :=
  Storage.mk [1]
    (fun i => if Z.eqb i 1 then Some ranked else None)
    (fun i => if Z.eqb i 1 then Some [property_change; download_without_payload]
              else None).

Definition schema_indexes : list string :=
  ["idx_products_sale_rank"; "idx_changelog_timestamp"; "idx_summary_timestamp"].

(** An index database left by an earlier run. *)
Definition old_index : Db.t :=
  Db.mk (Some [ProductsRow.mk 9 "Old" "logo9" "game" "windows" 1 "old"])
        (Some [])
        (Some [SummaryRow.mk 9 "Old" (Qmake 5 1) "build"])
        schema_indexes.

(** A connection inside a transaction on the old index, no fault
    injected. *)
Definition in_transaction : Conn.t :=
  Conn.mk old_index (Some old_index) None.

End Sample.

Section Indexer.

#[local] Set Default Proof Using "Type".

(** The two functions imported from [gogdb.core.normalization]. *)
Variable normalize_search : string -> string.
Variable compress_systems : list string -> string.

(** [datetime.timestamp()]. *)
Variable posix_timestamp : datetime -> Q.

(** [storage.json_encoder], the [default] hook handed to [json.dumps]:
    it is defined outside [indexdb.py] and turns a change record into
    a document. *)
Variable json_encoder : ChangeRecord.t -> Json.value.

(** *** [init_db] *)
Definition init_db : IO unit :=
  execute (CREATE_TABLE tbl_products) ;;
  execute (CREATE_TABLE tbl_changelog) ;;
  execute (CREATE_TABLE tbl_changelog_summary) ;;
  execute (CREATE_INDEX "idx_products_sale_rank" tbl_products) ;;
  execute (CREATE_INDEX "idx_changelog_timestamp" tbl_changelog) ;;
  execute (CREATE_INDEX "idx_summary_timestamp" tbl_changelog_summary) ;;
  ret tt.

(** *** [count_rows]: [fetchone()] gives the one row of the count. *)
Definition count_rows (table_name : table) : IO Z :=
  row <- execute (SELECT_COUNT table_name) ;;
  lift (subscript row).

(** *** [index_product] *)
Definition sale_rank_of (prod : Product.t) (num_ids : Z) : Z :=
  match Product.rank_bestselling prod with
  | Some rank => num_ids - rank + 1
  | None => 0
  end.

Definition product_row (prod : Product.t) (num_ids : Z) : ProductsRow.t :=
  ProductsRow.mk
    (Product.id prod)
    (Product.title prod)
    (Product.image_logo prod)
    (Product.type prod)
    (compress_systems (Product.comp_systems prod))
    (sale_rank_of prod num_ids)
    (normalize_search (Product.title prod)).

Definition index_product (prod : Product.t) (num_ids : Z) : IO unit :=
  execute (INSERT_INTO_products (product_row prod num_ids)) ;;
  ret tt.

(** *** [index_changelog] *)

(** Lines 74-90: the [IndexChange] of one change record. *)
Definition index_change (prod : Product.t) (changerec : ChangeRecord.t)
    : result IndexChange.t :=
  let idx_change :=
    IndexChange.new (Product.id prod) (Product.title prod)
      (ChangeRecord.timestamp changerec) (ChangeRecord.action changerec)
      (ChangeRecord.category changerec) changerec in
  if String.eqb (ChangeRecord.category changerec) "download" then
    match deref (ChangeRecord.download_record changerec) with
    | Raise e => Raise e
    | Ok download_record =>
        let idx_change :=
          IndexChange.set_dl_type (DownloadRecord.dl_type download_record) idx_change in
        let idx_change :=
          match DownloadRecord.dl_new_bonus download_record with
          | Some dl_new_bonus =>
              IndexChange.set_bonus_type (BonusRecord.bonus_type dl_new_bonus) idx_change
          | None => idx_change
          end in
        let idx_change :=
          match DownloadRecord.dl_old_bonus download_record with
          | Some dl_old_bonus =>
              IndexChange.set_bonus_type (BonusRecord.bonus_type dl_old_bonus) idx_change
          | None => idx_change
          end in
        Ok idx_change
    end
  else if String.eqb (ChangeRecord.category changerec) "property" then
    match deref (ChangeRecord.property_record changerec) with
    | Raise e => Raise e
    | Ok property_record =>
        Ok (IndexChange.set_property_name
              (PropertyRecord.property_name property_record) idx_change)
    end
  else Ok idx_change.

(** Lines 94-106: the tuple bound to the [INSERT INTO changelog]. *)
Definition changelog_row (idx_change : IndexChange.t) : ChangelogRow.t :=
  ChangelogRow.mk
    (IndexChange.id idx_change)
    (IndexChange.title idx_change)
    (posix_timestamp (IndexChange.timestamp idx_change))
    (IndexChange.action idx_change)
    (IndexChange.category idx_change)
    (IndexChange.dl_type idx_change)
    (IndexChange.bonus_type idx_change)
    (IndexChange.property_name idx_change)
    (Json.dumps true (json_encoder (IndexChange.record idx_change))).

(** The first loop: one changelog row per change record, and the
    category of the record added to the set of its timestamp. *)
Fixpoint index_changelog_records (prod : Product.t)
    (changelog : list ChangeRecord.t)
    (summaries : list (datetime * list string))
    : IO (list (datetime * list string)) :=
  match changelog with
  | [] => ret summaries
  | changerec :: rest =>
      idx_change <- lift (index_change prod changerec) ;;
      execute (INSERT_INTO_changelog (changelog_row idx_change)) ;;
      index_changelog_records prod rest
        (summaries_add summaries
           (ChangeRecord.timestamp changerec) (ChangeRecord.category changerec))
  end.

Definition summary_row (prod : Product.t) (item : datetime * list string)
    : SummaryRow.t :=
  let category_str := join "," (sorted String.leb (snd item)) in
  SummaryRow.mk
    (Product.id prod) (Product.title prod) (posix_timestamp (fst item)) category_str.

Definition index_changelog (prod : Product.t) (changelog : list ChangeRecord.t)
    : IO unit :=
  summaries <- index_changelog_records prod changelog [] ;;
  for_each summaries (fun item =>
    execute (INSERT_INTO_changelog_summary (summary_row prod item)) ;; ret tt).

(** *** [index_main] *)

(** The body of the loop over the ids; [continue] ends the iteration. *)
Definition index_id (db : Storage.t) (num_ids : Z) (prod_id : Z) : IO unit :=
  match Storage.product db prod_id with
  | None => ret tt
  | Some prod =>
      index_product prod num_ids ;;
      match Storage.changelog db prod_id with
      | None => ret tt
      | Some changelog => index_changelog prod changelog
      end
  end.

(** [aiosqlite.connect(path, isolation_level=None)] creates the file
    when there is none. *)
Definition connect (file : option Db.t) (fail_after : option nat) : Conn.t :=
  Conn.mk (match file with Some d => d | None => Db.empty end) None fail_after.

(** [conn.commit()] ends the open transaction, if there is one. *)
Definition conn_commit : IO unit := fun c =>
  match Conn.txn c with
  | Some _ => (execute END_TRANSACTION ;; ret tt) c
  | None => (Ok tt, c)
  end.

(** [conn.close()] drops what has not been committed. *)
Definition conn_close : IO unit := fun c =>
  (Ok tt, Conn.mk (Conn.durable c) None (Conn.fail_after c)).

(** Lines 132-165, on the open connection.  The value is the triple of
    counts the function prints. *)
Definition index_main_conn (db : Storage.t) (need_create : bool) : IO (Z * Z * Z) :=
  let ids := Storage.ids db in
  (if need_create then init_db else ret tt) ;;
  execute BEGIN_TRANSACTION ;;
  execute (DELETE_FROM tbl_products) ;;
  execute (DELETE_FROM tbl_changelog) ;;
  execute (DELETE_FROM tbl_changelog_summary) ;;
  let num_ids := Z.of_nat (List.length ids) in
  for_each ids (index_id db num_ids) ;;
  execute END_TRANSACTION ;;
  (n_products <- count_rows tbl_products ;;
   n_changelog <- count_rows tbl_changelog ;;
   n_summaries <- count_rows tbl_changelog_summary ;;
   conn_commit ;;
   conn_close ;;
   ret (n_products, n_changelog, n_summaries)).

(** [index_main(db)] run against the index file [file] ([None]: no
    file yet).  Its outcome, and the contents of the file as the next
    connection finds them: what was committed. *)
Definition index_main (db : Storage.t) (file : option Db.t)
    (fail_after : option nat) : result (Z * Z * Z) * Db.t :=
  let need_create := match file with Some _ => false | None => true end in
  let conn := connect file fail_after in
  let out := index_main_conn db need_create conn in
  (fst out, Conn.durable (snd out)).

(** ** The statements of a run *)

(** Neither the loaders nor the projections look at the index
    database, so the statements a run sends are a function of the
    primary store alone.  A [trace] lists the statements sent and the
    exception that ends the run after them, if one does. *)
Definition trace : Type := list statement * option exn.

Definition exec_all (stmts : list statement) : IO unit :=
  for_each stmts (fun s => execute s ;; ret tt).

Definition play (t : trace) : IO unit :=
  exec_all (fst t) ;;
  match snd t with
  | Some e => raise e
  | None => ret tt
  end.

Definition then_trace (t1 t2 : trace) : trace :=
  match snd t1 with
  | Some e => t1
  | None => (fst t1 ++ fst t2, snd t2)
  end.

Fixpoint changelog_trace (prod : Product.t) (changelog : list ChangeRecord.t)
    : trace :=
  match changelog with
  | [] => ([], None)
  | changerec :: rest =>
      match index_change prod changerec with
      | Raise e => ([], Some e)
      | Ok idx_change =>
          then_trace ([INSERT_INTO_changelog (changelog_row idx_change)], None)
                     (changelog_trace prod rest)
      end
  end.

(** The dictionary [summaries] after the first loop, started from [acc]. *)
Definition summaries_from (acc : list (datetime * list string))
    (changelog : list ChangeRecord.t) : list (datetime * list string) :=
  fold_left
    (fun summaries changerec =>
       summaries_add summaries
         (ChangeRecord.timestamp changerec) (ChangeRecord.category changerec))
    changelog acc.

Definition summaries_of (changelog : list ChangeRecord.t) :=
  summaries_from [] changelog.

Definition summary_trace (prod : Product.t) (changelog : list ChangeRecord.t)
    : trace :=
  (map (fun item => INSERT_INTO_changelog_summary (summary_row prod item))
       (summaries_of changelog), None).

Definition id_trace (db : Storage.t) (num_ids : Z) (prod_id : Z) : trace :=
  match Storage.product db prod_id with
  | None => ([], None)
  | Some prod =>
      then_trace ([INSERT_INTO_products (product_row prod num_ids)], None)
        match Storage.changelog db prod_id with
        | None => ([], None)
        | Some changelog =>
            then_trace (changelog_trace prod changelog) (summary_trace prod changelog)
        end
  end.

Fixpoint ids_trace (db : Storage.t) (num_ids : Z) (ids : list Z) : trace :=
  match ids with
  | [] => ([], None)
  | prod_id :: rest => then_trace (id_trace db num_ids prod_id) (ids_trace db num_ids rest)
  end.

Definition main_trace (db : Storage.t) : trace :=
  ids_trace db (Z.of_nat (List.length (Storage.ids db))) (Storage.ids db).

(** The rows a list of statements inserts into each table. *)
Definition products_in (stmts : list statement) : list ProductsRow.t :=
  flat_map (fun s => match s with INSERT_INTO_products r => [r] | _ => [] end) stmts.
Definition changelog_in (stmts : list statement) : list ChangelogRow.t :=
  flat_map (fun s => match s with INSERT_INTO_changelog r => [r] | _ => [] end) stmts.
Definition summary_in (stmts : list statement) : list SummaryRow.t :=
  flat_map (fun s => match s with INSERT_INTO_changelog_summary r => [r] | _ => [] end) stmts.

(** The index database after a rebuild that went through: the three
    tables hold the rows of the run, the indexes are those of before. *)
Definition rebuilt (db : Storage.t) (d : Db.t) : Db.t :=
  Db.mk (Some (products_in (fst (main_trace db))))
        (Some (changelog_in (fst (main_trace db))))
        (Some (summary_in (fst (main_trace db))))
        (Db.indexes d).

(** ** Specification-level descriptions *)

(** The distinct timestamps of a changelog, in order of first
    occurrence. *)
Fixpoint distinct_timestamps (changelog : list ChangeRecord.t) : list datetime :=
  match changelog with
  | [] => []
  | changerec :: rest =>
      ChangeRecord.timestamp changerec
        :: filter (fun t => negb (Z.eqb t (ChangeRecord.timestamp changerec)))
             (distinct_timestamps rest)
  end.

(** The categories of the records carrying timestamp [t]. *)
Definition categories_at (changelog : list ChangeRecord.t) (t : datetime)
    : list string :=
  map ChangeRecord.category
    (filter (fun changerec => Z.eqb (ChangeRecord.timestamp changerec) t) changelog).

(** The summary rows the specification asks for: one row per distinct
    timestamp, holding the distinct categories met at that timestamp,
    sorted and joined by commas. *)
Definition expected_summary_rows (prod : Product.t)
    (changelog : list ChangeRecord.t) : list SummaryRow.t :=
  map (fun t =>
         SummaryRow.mk (Product.id prod) (Product.title prod) (posix_timestamp t)
           (join "," (sorted String.leb (nodup string_dec (categories_at changelog t)))))
      (distinct_timestamps changelog).

(** A record carries the payload its category reads: a [download]
    record its download payload, a [property] record its property
    payload; any other category reads none. *)
Definition payload_present (changerec : ChangeRecord.t) : bool :=
  if String.eqb (ChangeRecord.category changerec) "download" then
    match ChangeRecord.download_record changerec with Some _ => true | None => false end
  else if String.eqb (ChangeRecord.category changerec) "property" then
    match ChangeRecord.property_record changerec with Some _ => true | None => false end
  else true.

(** ** Statements inside a transaction *)

Definition is_data (s : statement) : bool :=
  match s with
  | BEGIN_TRANSACTION | END_TRANSACTION => false
  | _ => true
  end.

Definition is_insert (s : statement) : bool :=
  match s with
  | INSERT_INTO_products _ | INSERT_INTO_changelog _
  | INSERT_INTO_changelog_summary _ => true
  | _ => false
  end.

(** The contents after the engine has accepted every statement of the
    list, or [None] when it rejects one. *)
Fixpoint apply_all (stmts : list statement) (w : Db.t) : option Db.t :=
  match stmts with
  | [] => Some w
  | s :: rest =>
      match run_statement s w with
      | Some (w', _) => apply_all rest w'
      | None => None
      end
  end.

(** The budget of injected faults lets [n] statements through. *)
Definition covers (budget : option nat) (n : nat) : bool :=
  match budget with
  | None => true
  | Some k => (n <=? k)%nat
  end.

Definition spend (n : nat) (budget : option nat) : option nat :=
  option_map (fun k => (k - n)%nat) budget.

Definition schema_ready (d : Db.t) : bool :=
  Db.has_table tbl_products d && Db.has_table tbl_changelog d
  && Db.has_table tbl_changelog_summary d.

(** What the run sends between [BEGIN] and [END]. *)
Definition txn_body (db : Storage.t) : list statement :=
  [DELETE_FROM tbl_products; DELETE_FROM tbl_changelog;
   DELETE_FROM tbl_changelog_summary] ++ fst (main_trace db).

(** What follows the [END TRANSACTION] in [index_main]. *)
Definition report_and_close : IO (Z * Z * Z) :=
  n_products <- count_rows tbl_products ;;
  n_changelog <- count_rows tbl_changelog ;;
  n_summaries <- count_rows tbl_changelog_summary ;;
  conn_commit ;;
  conn_close ;;
  ret (n_products, n_changelog, n_summaries).

(** The schema [init_db] creates in a new file. *)
Definition fresh_schema : Db.t :=
  Db.mk (Some []) (Some []) (Some [])
    ["idx_products_sale_rank"; "idx_changelog_timestamp"; "idx_summary_timestamp"].

(** A computation that, outside a transaction, leaves the committed
    contents as they are and opens no transaction. *)
Definition quiet {A} (m : IO A) : Prop :=
  forall c : Conn.t,
    Conn.txn c = None ->
    Conn.durable (snd (m c)) = Conn.durable c /\ Conn.txn (snd (m c)) = None.

(** The counts [index_main] prints for the contents [d]. *)
Definition counts_of (d : Db.t) : Z * Z * Z :=
  (match Db.count tbl_products d with Some n => n | None => 0 end,
   match Db.count tbl_changelog d with Some n => n | None => 0 end,
   match Db.count tbl_changelog_summary d with Some n => n | None => 0 end).

(** The run of [index_main] raises no [AttributeError]. *)
Definition completes (db : Storage.t) : bool :=
  match snd (main_trace db) with
  | None => true
  | Some _ => false
  end.

(** The rebuild reaches the end of its transaction: the index database
    has its three tables, no change record stops the run, and the
    injected fault, if any, comes after [END TRANSACTION]. *)
Definition commits (db : Storage.t) (d : Db.t) (budget : option nat) : bool :=
  schema_ready d && completes db && covers budget (List.length (txn_body db) + 2).

(** The set built by adding the elements of [l] one after the other. *)
Definition set_of (l : list string) : list string :=
  fold_left (fun s c => set_add_str c s) l [].

(** ** Characters of a serialized record *)

(** A byte of a character outside ASCII (every byte of its UTF-8
    encoding is 128 or more). *)
Definition non_ascii (a : ascii) : bool := (128 <=? nat_of_ascii a)%nat.

(** The characters of [s] that satisfy [f], in order. *)
Fixpoint keep (f : ascii -> bool) (s : string) : string :=
  match s with
  | EmptyString => EmptyString
  | String a r => if f a then String a (keep f r) else keep f r
  end.

(** ** The rows one id contributes *)

(** The row of a change record whose projection goes through. *)
Definition changelog_rows_for (prod : Product.t) (changelog : list ChangeRecord.t)
    : list ChangelogRow.t :=
  flat_map (fun changerec =>
              match index_change prod changerec with
              | Ok idx_change => [changelog_row idx_change]
              | Raise _ => []
              end) changelog.

Definition product_rows_of (db : Storage.t) (num_ids prod_id : Z)
    : list ProductsRow.t :=
  match Storage.product db prod_id with
  | Some prod => [product_row prod num_ids]
  | None => []
  end.

Definition changelog_rows_of (db : Storage.t) (prod_id : Z) : list ChangelogRow.t :=
  match Storage.product db prod_id, Storage.changelog db prod_id with
  | Some prod, Some changelog => changelog_rows_for prod changelog
  | _, _ => []
  end.

Definition summary_rows_of (db : Storage.t) (prod_id : Z) : list SummaryRow.t :=
  match Storage.product db prod_id, Storage.changelog db prod_id with
  | Some prod, Some changelog => expected_summary_rows prod changelog
  | _, _ => []
  end.

(** The id [prod_id] has a product and a changelog, and one of the
    change records lacks the payload its category reads. *)
Definition has_broken_record (db : Storage.t) (prod_id : Z) : Prop :=
  exists prod changelog changerec,
    Storage.product db prod_id = Some prod
    /\ Storage.changelog db prod_id = Some changelog
    /\ In changerec changelog
    /\ payload_present changerec = false.

(** The product of [prod_id] loads. *)
Definition product_loads (db : Storage.t) (prod_id : Z) : bool :=
  match Storage.product db prod_id with
  | Some _ => true
  | None => false
  end.

(** Every dictionary of the document has pairwise distinct keys, as a
    Python [dict] has. *)
Fixpoint keys_distinct (v : Json.value) : Prop :=
  match v with
  | Json.JList l => fold_right (fun x P => keys_distinct x /\ P) True l
  | Json.JDict items =>
      NoDup (map fst items)
      /\ fold_right (fun kv P => keys_distinct (snd kv) /\ P) True items
  | _ => True
  end.


(** * Properties *)

(** Facts about lists, strings and documents do not depend on the
    functions the section abstracts over. *)
Ltac forget_env :=
  try clear json_encoder; try clear posix_timestamp;
  try clear compress_systems; try clear normalize_search.

(** ** The row projections *)

(** C2: the sale rank written for a product is [num_ids - rank + 1]
    when the product has a bestseller rank [rank], so that rank 1 gets
    the largest value [num_ids], and 0 when it has none. *)
Theorem sale_rank_projection :
  forall (prod : Product.t) (num_ids : Z),
    (forall rank, Product.rank_bestselling prod = Some rank ->
       ProductsRow.sale_rank (product_row prod num_ids) = num_ids - rank + 1)
    /\ (Product.rank_bestselling prod = Some 1 ->
       ProductsRow.sale_rank (product_row prod num_ids) = num_ids)
    /\ (Product.rank_bestselling prod = None ->
       ProductsRow.sale_rank (product_row prod num_ids) = 0).
Proof.
  intros prod num_ids; unfold product_row, sale_rank_of; simpl.
  repeat split.
  - intros rank ->; reflexivity.
  - intros ->; lia.
  - intros ->; reflexivity.
Qed.

Lemma index_change_copies :
  forall prod changerec idx_change,
    index_change prod changerec = Ok idx_change ->
    IndexChange.id idx_change = Product.id prod
    /\ IndexChange.title idx_change = Product.title prod
    /\ IndexChange.timestamp idx_change = ChangeRecord.timestamp changerec
    /\ IndexChange.action idx_change = ChangeRecord.action changerec
    /\ IndexChange.category idx_change = ChangeRecord.category changerec
    /\ IndexChange.record idx_change = changerec.
Proof.
  intros prod changerec idx_change; unfold index_change.
  destruct (String.eqb _ "download").
  - destruct (ChangeRecord.download_record changerec) as [dr|]; simpl; [|discriminate].
    destruct (DownloadRecord.dl_new_bonus dr), (DownloadRecord.dl_old_bonus dr);
      intros [= <-]; repeat split.
  - destruct (String.eqb _ "property").
    + destruct (ChangeRecord.property_record changerec); simpl; [|discriminate].
      intros [= <-]; repeat split.
    + intros [= <-]; repeat split.
Qed.

(** C6: a download record with both bonus sub-records is projected
    with the bonus type of the old bonus, which is assigned last. *)
Theorem bonus_type_old_wins :
  forall (prod : Product.t) (changerec : ChangeRecord.t)
         (download_record : DownloadRecord.t) (dl_new_bonus dl_old_bonus : BonusRecord.t),
    ChangeRecord.category changerec = "download" ->
    ChangeRecord.download_record changerec = Some download_record ->
    DownloadRecord.dl_new_bonus download_record = Some dl_new_bonus ->
    DownloadRecord.dl_old_bonus download_record = Some dl_old_bonus ->
    exists idx_change,
      index_change prod changerec = Ok idx_change
      /\ ChangelogRow.bonus_type (changelog_row idx_change)
         = Some (BonusRecord.bonus_type dl_old_bonus).
Proof.
  intros prod changerec dr nb ob Hcat Hdr Hnew Hold.
  unfold index_change. rewrite Hcat, Hdr; simpl. rewrite Hnew, Hold.
  eexists; split; reflexivity.
Qed.

(** C10: a download record with one bonus sub-record is projected
    with the bonus type of that sub-record; with none, [bonus_type]
    stays null.  In each case [dl_type] is the download type of the
    payload. *)
Theorem bonus_type_single :
  forall (prod : Product.t) (changerec : ChangeRecord.t)
         (download_record : DownloadRecord.t),
    ChangeRecord.category changerec = "download" ->
    ChangeRecord.download_record changerec = Some download_record ->
    exists idx_change,
      index_change prod changerec = Ok idx_change
      /\ ChangelogRow.dl_type (changelog_row idx_change)
         = Some (DownloadRecord.dl_type download_record)
      /\ (forall b,
            DownloadRecord.dl_new_bonus download_record = Some b ->
            DownloadRecord.dl_old_bonus download_record = None ->
            ChangelogRow.bonus_type (changelog_row idx_change)
            = Some (BonusRecord.bonus_type b))
      /\ (forall b,
            DownloadRecord.dl_new_bonus download_record = None ->
            DownloadRecord.dl_old_bonus download_record = Some b ->
            ChangelogRow.bonus_type (changelog_row idx_change)
            = Some (BonusRecord.bonus_type b))
      /\ (DownloadRecord.dl_new_bonus download_record = None ->
          DownloadRecord.dl_old_bonus download_record = None ->
          ChangelogRow.bonus_type (changelog_row idx_change) = None).
Proof.
  intros prod changerec dr Hcat Hdr.
  unfold index_change. rewrite Hcat, Hdr; simpl.
  eexists; split; [reflexivity|].
  destruct (DownloadRecord.dl_new_bonus dr) as [nb|],
           (DownloadRecord.dl_old_bonus dr) as [ob|]; simpl;
    repeat split; intros; try discriminate; try congruence.
Qed.

(** ** Laws of [IO] and the statements of a run *)

Lemma bind_assoc :
  forall {A B C} (m : IO A) (k : A -> IO B) (h : B -> IO C) (c : Conn.t),
    bind (bind m k) h c = bind m (fun a => bind (k a) h) c.
Proof.
  intros A B C m k h c; unfold bind.
  destruct (m c) as [[a|e] c']; reflexivity.
Qed.

Lemma bind_cong :
  forall {A B} (m m' : IO A) (k k' : A -> IO B) (c : Conn.t),
    m c = m' c ->
    (forall a c', k a c' = k' a c') ->
    bind m k c = bind m' k' c.
Proof.
  intros A B m m' k k' c Hm Hk; unfold bind; rewrite Hm.
  destruct (m' c) as [[a|e] c']; [apply Hk | reflexivity].
Qed.

Lemma exec_all_app :
  forall (l1 l2 : list statement) (c : Conn.t),
    exec_all (l1 ++ l2) c = bind (exec_all l1) (fun _ => exec_all l2) c.
Proof.
  induction l1 as [|s l1 IH]; intros l2 c.
  - reflexivity.
  - unfold exec_all in *; simpl.
    rewrite (bind_assoc (bind (execute s) (fun _ => ret tt))).
    apply bind_cong; [reflexivity|].
    intros _ c'. apply IH.
Qed.

Lemma play_then :
  forall (t1 t2 : trace) (c : Conn.t),
    play (then_trace t1 t2) c = bind (play t1) (fun _ => play t2) c.
Proof.
  intros [l1 [e|]] t2 c; unfold then_trace, play; cbn [fst snd].
  - unfold bind, raise. destruct (exec_all l1 c) as [[[]|e'] c']; reflexivity.
  - unfold bind. rewrite exec_all_app. unfold bind, ret.
    destruct (exec_all l1 c) as [[[]|e'] c']; reflexivity.
Qed.

Lemma play_nil : forall c, play ([], None) c = (Ok tt, c).
Proof. reflexivity. Qed.

Lemma play_single :
  forall (s : statement) (c : Conn.t),
    play ([s], None) c = bind (execute s) (fun _ => ret tt) c.
Proof.
  intros s c; unfold play, exec_all, bind, ret; simpl.
  unfold bind, ret. destruct (execute s c) as [[r|e] c']; reflexivity.
Qed.

Lemma bind_play_then :
  forall {B} (t1 t2 : trace) (k : unit -> IO B) (c : Conn.t),
    bind (play (then_trace t1 t2)) k c
    = bind (play t1) (fun _ => bind (play t2) k) c.
Proof.
  intros B t1 t2 k c.
  rewrite <- bind_assoc.
  apply bind_cong; [apply play_then | reflexivity].
Qed.

Lemma bind_play_single :
  forall {B} (s : statement) (k : unit -> IO B) (c : Conn.t),
    bind (play ([s], None)) k c = bind (execute s) (fun _ => k tt) c.
Proof.
  intros B s k c.
  rewrite (bind_cong _ _ k k c (play_single s c) (fun _ _ => eq_refl)).
  rewrite bind_assoc. reflexivity.
Qed.

Lemma index_changelog_records_play :
  forall (prod : Product.t) (changelog : list ChangeRecord.t)
         (acc : list (datetime * list string)) (c : Conn.t),
    index_changelog_records prod changelog acc c
    = bind (play (changelog_trace prod changelog))
           (fun _ => ret (summaries_from acc changelog)) c.
Proof.
  intros prod changelog; induction changelog as [|changerec rest IH]; intros acc c.
  - reflexivity.
  - simpl index_changelog_records; simpl changelog_trace.
    destruct (index_change prod changerec) as [idx_change|e]; [|reflexivity].
    rewrite bind_play_then, bind_play_single.
    unfold bind at 1, lift.
    apply bind_cong; [reflexivity|].
    intros _ c'. apply IH.
Qed.

Lemma index_changelog_play :
  forall (prod : Product.t) (changelog : list ChangeRecord.t) (c : Conn.t),
    index_changelog prod changelog c
    = play (then_trace (changelog_trace prod changelog)
                       (summary_trace prod changelog)) c.
Proof.
  intros prod changelog c.
  rewrite play_then. unfold index_changelog.
  rewrite (bind_cong _ _ _
             (fun summaries =>
                for_each summaries (fun item =>
                  bind (execute (INSERT_INTO_changelog_summary (summary_row prod item)))
                       (fun _ => ret tt)))
             c (index_changelog_records_play prod changelog [] c) (fun _ _ => eq_refl)).
  rewrite bind_assoc. apply bind_cong; [reflexivity|].
  intros _ c'. unfold bind at 1, ret at 1.
  unfold play, summary_trace, summaries_of; cbn [fst snd].
  generalize (summaries_from [] changelog); intros l; revert c'.
  induction l as [|item l IH]; intros c'.
  - reflexivity.
  - unfold exec_all in *; simpl.
    rewrite (bind_assoc (bind (execute _) (fun _ => ret tt))).
    apply bind_cong; [reflexivity|]. intros _ c''. apply IH.
Qed.

Lemma index_id_play :
  forall (db : Storage.t) (num_ids prod_id : Z) (c : Conn.t),
    index_id db num_ids prod_id c = play (id_trace db num_ids prod_id) c.
Proof.
  intros db num_ids prod_id c; unfold index_id, id_trace.
  destruct (Storage.product db prod_id) as [prod|]; [|reflexivity].
  rewrite play_then, bind_play_single. unfold index_product.
  rewrite bind_assoc. apply bind_cong; [reflexivity|].
  intros _ c'. unfold bind at 1, ret at 1.
  destruct (Storage.changelog db prod_id) as [changelog|]; [|reflexivity].
  apply index_changelog_play.
Qed.

Lemma for_each_ids_play :
  forall (db : Storage.t) (num_ids : Z) (ids : list Z) (c : Conn.t),
    for_each ids (index_id db num_ids) c = play (ids_trace db num_ids ids) c.
Proof.
  intros db num_ids ids; induction ids as [|prod_id rest IH]; intros c.
  - reflexivity.
  - simpl. rewrite play_then.
    apply bind_cong; [apply index_id_play | intros _ c'; apply IH].
Qed.

(** ** Execution inside a transaction *)

Lemma execute_raises :
  forall (s : statement) (c c' : Conn.t) (e : exn),
    execute s c = (Raise e, c') -> e = OperationalError.
Proof.
  intros s c c' e; unfold execute.
  destruct (Conn.fail_after c) as [[|n]|], s, (Conn.txn c);
    cbn; repeat match goal with |- context [match ?x with _ => _ end] =>
                   destruct x as [[? ?]|] eqn:?; cbn end;
    intros [= <- _]; reflexivity.
Qed.

Lemma execute_txn :
  forall (s : statement) (d w : Db.t) (b : option nat),
    is_data s = true ->
    match b, run_statement s w with
    | Some O, _ =>
        execute s (Conn.mk d (Some w) b) = (Raise OperationalError, Conn.mk d (Some w) b)
    | _, Some (w', row) =>
        execute s (Conn.mk d (Some w) b)
        = (Ok row, Conn.mk d (Some w') (option_map Nat.pred b))
    | _, None =>
        execute s (Conn.mk d (Some w) b)
        = (Raise OperationalError, Conn.mk d (Some w) (option_map Nat.pred b))
    end.
Proof.
  intros s d w b Hs.
  destruct b as [[|n]|]; [reflexivity| |];
    unfold execute; cbn [Conn.fail_after Conn.txn Conn.durable];
    destruct s; try discriminate Hs;
    destruct (run_statement _ w) as [[w' row]|]; reflexivity.
Qed.

Lemma spend_succ :
  forall (n : nat) (b : option nat),
    spend (S n) b = spend n (option_map Nat.pred b).
Proof.
  intros n [k|]; cbn; [f_equal; lia | reflexivity].
Qed.

Lemma exec_all_cons :
  forall (s : statement) (rest : list statement) (c : Conn.t),
    exec_all (s :: rest) c
    = match execute s c with
      | (Ok _, c') => exec_all rest c'
      | (Raise e, c') => (Raise e, c')
      end.
Proof.
  intros s rest c; unfold exec_all; simpl; unfold bind, ret.
  destruct (execute s c) as [[row|e] c']; reflexivity.
Qed.

Lemma exec_all_txn :
  forall (stmts : list statement),
    forallb is_data stmts = true ->
    forall (d w : Db.t) (b : option nat),
      let out := exec_all stmts (Conn.mk d (Some w) b) in
      Conn.durable (snd out) = d
      /\ Conn.txn (snd out) <> None
      /\ match apply_all stmts w with
         | Some w' =>
             if covers b (List.length stmts)
             then out = (Ok tt, Conn.mk d (Some w') (spend (List.length stmts) b))
             else fst out = Raise OperationalError
         | None => fst out = Raise OperationalError
         end.
Proof.
  induction stmts as [|s rest IH]; intros Hdata d w b.
  - cbn. repeat split; [discriminate|].
    destruct b as [k|]; cbn; [rewrite Nat.sub_0_r|]; reflexivity.
  - cbn in Hdata. apply andb_prop in Hdata as [Hs Hrest].
    specialize (IH Hrest).
    pose proof (execute_txn s d w b Hs) as He.
    cbv zeta. rewrite exec_all_cons.
    cbn [apply_all List.length]. rewrite spend_succ.
    destruct b as [[|n]|].
    + rewrite He; cbn. repeat split; [discriminate|].
      destruct (run_statement s w) as [[w' row]|]; [|reflexivity].
      destruct (apply_all rest w'); reflexivity.
    + destruct (run_statement s w) as [[w' row]|]; rewrite He;
        cbn [option_map Nat.pred fst snd].
      * destruct (IH d w' (Some n)) as (H1 & H2 & H3).
        repeat split; [exact H1 | exact H2 |].
        destruct (apply_all rest w'); exact H3.
      * cbn. repeat split; discriminate.
    + destruct (run_statement s w) as [[w' row]|]; rewrite He;
        cbn [option_map Nat.pred fst snd].
      * destruct (IH d w' None) as (H1 & H2 & H3).
        repeat split; [exact H1 | exact H2 |].
        destruct (apply_all rest w'); exact H3.
      * cbn. repeat split; discriminate.
Qed.

(** ** The statements of a rebuild are inserts *)

Lemma apply_all_inserts :
  forall (stmts : list statement) (p : list ProductsRow.t) (c : list ChangelogRow.t)
         (s : list SummaryRow.t) (idx : list string),
    forallb is_insert stmts = true ->
    apply_all stmts (Db.mk (Some p) (Some c) (Some s) idx)
    = Some (Db.mk (Some (p ++ products_in stmts)) (Some (c ++ changelog_in stmts))
                  (Some (s ++ summary_in stmts)) idx).
Proof.
  induction stmts as [|st rest IH]; intros p c s idx Hins.
  - cbn. rewrite !app_nil_r. reflexivity.
  - cbn in Hins. apply andb_prop in Hins as [Hst Hrest].
    destruct st; try discriminate Hst; cbn;
      unfold Db.set_products, Db.set_changelog, Db.set_summary; cbn;
      rewrite (IH _ _ _ _ Hrest), <- ?app_assoc; reflexivity.
Qed.

Lemma is_insert_is_data :
  forall stmts, forallb is_insert stmts = true -> forallb is_data stmts = true.
Proof.
  induction stmts as [|s rest IH]; [reflexivity|].
  cbn; intros H. apply andb_prop in H as [Hs Hrest].
  rewrite (IH Hrest), andb_true_r. now destruct s.
Qed.

Lemma then_trace_inserts :
  forall t1 t2 : trace,
    forallb is_insert (fst t1) = true ->
    forallb is_insert (fst t2) = true ->
    forallb is_insert (fst (then_trace t1 t2)) = true.
Proof.
  intros [l1 [e|]] [l2 e2] H1 H2; unfold then_trace; cbn in *; [exact H1|].
  rewrite forallb_app, H1, H2. reflexivity.
Qed.

Lemma changelog_trace_inserts :
  forall prod changelog, forallb is_insert (fst (changelog_trace prod changelog)) = true.
Proof.
  intros prod changelog; induction changelog as [|changerec rest IH]; [reflexivity|].
  cbn [changelog_trace]. destruct (index_change prod changerec); [|reflexivity].
  apply then_trace_inserts; [reflexivity | exact IH].
Qed.

Lemma summary_trace_inserts :
  forall prod changelog, forallb is_insert (fst (summary_trace prod changelog)) = true.
Proof.
  intros prod changelog; unfold summary_trace; cbn.
  induction (summaries_of changelog); [reflexivity | exact IHl].
Qed.

Lemma id_trace_inserts :
  forall db num_ids prod_id, forallb is_insert (fst (id_trace db num_ids prod_id)) = true.
Proof.
  intros db num_ids prod_id; unfold id_trace.
  destruct (Storage.product db prod_id) as [prod|]; [|reflexivity].
  apply then_trace_inserts; [reflexivity|].
  destruct (Storage.changelog db prod_id) as [changelog|]; [|reflexivity].
  apply then_trace_inserts; [apply changelog_trace_inserts | apply summary_trace_inserts].
Qed.

Lemma ids_trace_inserts :
  forall db num_ids ids, forallb is_insert (fst (ids_trace db num_ids ids)) = true.
Proof.
  intros db num_ids ids; induction ids as [|prod_id rest IH]; [reflexivity|].
  cbn [ids_trace]. apply then_trace_inserts; [apply id_trace_inserts | exact IH].
Qed.

Lemma txn_body_data :
  forall db, forallb is_data (txn_body db) = true.
Proof.
  intros db; unfold txn_body. rewrite forallb_app; cbn.
  apply is_insert_is_data, ids_trace_inserts.
Qed.

Lemma apply_txn_body :
  forall (db : Storage.t) (d : Db.t),
    apply_all (txn_body db) d = if schema_ready d then Some (rebuilt db d) else None.
Proof.
  intros db [[p|] [c|] [s|] idx]; try reflexivity.
  unfold txn_body, rebuilt, main_trace; cbn.
  unfold Db.set_products, Db.set_changelog, Db.set_summary; cbn.
  rewrite apply_all_inserts by apply ids_trace_inserts. reflexivity.
Qed.

Lemma rebuilt_ready : forall db d, schema_ready (rebuilt db d) = true.
Proof. reflexivity. Qed.

Lemma rebuilt_twice : forall db d, rebuilt db (rebuilt db d) = rebuilt db d.
Proof. reflexivity. Qed.

(** ** [index_main] on an existing index file *)

Lemma bind_exec_all_cons :
  forall {B} (s : statement) (rest : list statement) (k : unit -> IO B) (c : Conn.t),
    bind (exec_all (s :: rest)) k c
    = bind (execute s) (fun _ => bind (exec_all rest) k) c.
Proof.
  intros B s rest k c; unfold bind at 1 2. rewrite exec_all_cons.
  destruct (execute s c) as [[row|e] c']; reflexivity.
Qed.

Lemma index_main_conn_existing :
  forall (db : Storage.t) (c : Conn.t),
    index_main_conn db false c
    = (execute BEGIN_TRANSACTION ;;
       exec_all (txn_body db) ;;
       match snd (main_trace db) with
       | Some e => raise e
       | None => ret tt
       end ;;
       execute END_TRANSACTION ;;
       report_and_close) c.
Proof.
  intros db c; unfold index_main_conn, txn_body; cbn [app].
  unfold bind at 1, ret at 1.
  apply bind_cong; [reflexivity|]; intros _ c1.
  rewrite bind_exec_all_cons. apply bind_cong; [reflexivity|]; intros _ c2.
  rewrite bind_exec_all_cons. apply bind_cong; [reflexivity|]; intros _ c3.
  rewrite bind_exec_all_cons. apply bind_cong; [reflexivity|]; intros _ c4.
  rewrite <- (bind_assoc (exec_all (fst (main_trace db)))).
  apply bind_cong; [|reflexivity].
  apply for_each_ids_play.
Qed.

Lemma quiet_bind :
  forall {A B} (m : IO A) (k : A -> IO B),
    quiet m -> (forall a, quiet (k a)) -> quiet (bind m k).
Proof.
  intros A B m k Hm Hk c Hc; unfold bind.
  destruct (Hm c Hc) as [Hd Ht].
  destruct (m c) as [[a|e] c']; cbn in *.
  - destruct (Hk a c' Ht) as [Hd' Ht']. split; congruence.
  - split; assumption.
Qed.

Lemma quiet_count_rows : forall tb, quiet (count_rows tb).
Proof.
  intros tb [d t b] Hc; cbn in Hc; subst t.
  unfold count_rows, bind, execute, lift, subscript; cbn.
  destruct b as [[|n]|]; cbn; [split; reflexivity| |];
    destruct (Db.count tb d); cbn; split; reflexivity.
Qed.

Lemma quiet_report_and_close : quiet report_and_close.
Proof.
  unfold report_and_close.
  repeat (apply quiet_bind; [try apply quiet_count_rows | intros ?]).
  - intros c Hc; unfold conn_commit; rewrite Hc; cbn; split; [reflexivity | exact Hc].
  - intros c Hc; cbn; split; reflexivity.
  - intros c Hc; cbn; split; [reflexivity | exact Hc].
Qed.

Lemma report_and_close_ready :
  forall d : Db.t,
    schema_ready d = true ->
    report_and_close (Conn.mk d None None) = (Ok (counts_of d), Conn.mk d None None).
Proof.
  intros [[p|] [c|] [s|] idx] H; try discriminate H. reflexivity.
Qed.

Lemma execute_begin :
  forall (d : Db.t) (b : option nat),
    execute BEGIN_TRANSACTION (Conn.mk d None b)
    = match b with
      | Some O => (Raise OperationalError, Conn.mk d None b)
      | _ => (Ok None, Conn.mk d (Some d) (option_map Nat.pred b))
      end.
Proof. intros d [[|n]|]; reflexivity. Qed.

Lemma execute_end :
  forall (d w : Db.t) (b : option nat),
    execute END_TRANSACTION (Conn.mk d (Some w) b)
    = match b with
      | Some O => (Raise OperationalError, Conn.mk d (Some w) b)
      | _ => (Ok None, Conn.mk w None (option_map Nat.pred b))
      end.
Proof. intros d w [[|n]|]; reflexivity. Qed.

Lemma bind_ok :
  forall {A B} (m : IO A) (k : A -> IO B) (c c' : Conn.t) (a : A),
    m c = (Ok a, c') -> bind m k c = k a c'.
Proof. intros A B m k c c' a H; unfold bind; rewrite H; reflexivity. Qed.

Lemma bind_raise :
  forall {A B} (m : IO A) (k : A -> IO B) (c c' : Conn.t) (e : exn),
    m c = (Raise e, c') -> bind m k c = (Raise e, c').
Proof. intros A B m k c c' e H; unfold bind; rewrite H; reflexivity. Qed.

Lemma bind_ret :
  forall {A B} (a : A) (k : A -> IO B) (c : Conn.t), bind (ret a) k c = k a c.
Proof. reflexivity. Qed.

Lemma index_main_conn_cases :
  forall (db : Storage.t) (d : Db.t) (budget : option nat),
    let run := index_main_conn db false (Conn.mk d None budget) in
    if commits db d budget
    then Conn.durable (snd run) = rebuilt db d
         /\ (budget = None -> fst run = Ok (counts_of (rebuilt db d)))
    else Conn.durable (snd run) = d /\ exists e, fst run = Raise e.
Proof.
  intros db d budget; cbv zeta.
  rewrite !index_main_conn_existing. unfold commits.
  destruct (exec_all_txn (txn_body db) (txn_body_data db) d d (option_map Nat.pred budget))
    as (Hd & Ht & Hout).
  rewrite apply_txn_body in Hout.
  remember (txn_body db) as body eqn:Hbody; clear Hbody.
  destruct budget as [[|n]|]; cbn [option_map Nat.pred] in *.
  - (* the fault hits BEGIN *)
    replace (covers (Some O) (List.length body + 2)) with false
      by (symmetry; apply Nat.leb_gt; lia).
    rewrite andb_false_r.
    rewrite (bind_raise _ _ _ _ _ (execute_begin d (Some O))).
    split; [reflexivity | eexists; reflexivity].
  - rewrite (bind_ok _ _ _ _ _ (execute_begin d (Some (S n)))).
    cbn [option_map Nat.pred].
    destruct (exec_all body _) as [[[]|e] c2] eqn:Hrun; cbn [fst snd] in Hd, Ht, Hout.
    + rewrite (bind_ok _ _ _ _ _ Hrun).
      destruct (schema_ready d); [|discriminate Hout].
      cbn [andb covers spend option_map] in *.
      replace (List.length body + 2 <=? S n)%nat
        with (List.length body + 1 <=? n)%nat
        by (rewrite Nat.add_succ_r with (m := 1%nat); reflexivity).
      destruct (List.length body <=? n)%nat eqn:Hlen; [|discriminate Hout].
      injection Hout as ->.
      unfold completes.
      destruct (snd (main_trace db)) as [e|].
      * cbn. split; [reflexivity | eexists; reflexivity].
      * rewrite !bind_ret.
        apply Nat.leb_le in Hlen.
        destruct (n - List.length body)%nat as [|k] eqn:Hk.
        -- replace (List.length body + 1 <=? n)%nat with false
             by (symmetry; apply Nat.leb_gt; lia).
           rewrite (bind_raise _ _ _ _ _ (execute_end d (rebuilt db d) (Some O))).
           cbn. split; [reflexivity | eexists; reflexivity].
        -- replace (List.length body + 1 <=? n)%nat with true
             by (symmetry; apply Nat.leb_le; lia).
           rewrite (bind_ok _ _ _ _ _ (execute_end d (rebuilt db d) (Some (S k)))).
           cbn [andb option_map Nat.pred].
           destruct (quiet_report_and_close
                       (Conn.mk (rebuilt db d) None (Some k)) eq_refl) as [Hq _].
           split; [exact Hq | discriminate].
    + rewrite (bind_raise _ _ _ _ _ Hrun).
      assert (Hno : schema_ready d && completes db
                    && covers (Some (S n)) (List.length body + 2) = false).
      { destruct (schema_ready d); [|reflexivity].
        cbn in Hout |- *.
        destruct (List.length body <=? n)%nat eqn:Hlen; [discriminate Hout|].
        apply Nat.leb_gt in Hlen.
        rewrite andb_false_iff; right. apply Nat.leb_gt. lia. }
      rewrite Hno. split; [exact Hd | eexists; reflexivity].
  - rewrite (bind_ok _ _ _ _ _ (execute_begin d None)).
    cbn [option_map]. rewrite andb_true_r.
    destruct (exec_all body _) as [[[]|e] c2] eqn:Hrun; cbn [fst snd] in Hd, Ht, Hout.
    + rewrite (bind_ok _ _ _ _ _ Hrun).
      destruct (schema_ready d); [|discriminate Hout].
      cbn [andb covers spend option_map] in *.
      injection Hout as ->.
      unfold completes.
      destruct (snd (main_trace db)) as [e|].
      * cbn. split; [reflexivity | eexists; reflexivity].
      * rewrite !bind_ret.
        rewrite (bind_ok _ _ _ _ _ (execute_end d (rebuilt db d) None)).
        cbn [option_map].
        rewrite report_and_close_ready by reflexivity.
        split; [reflexivity | intros _; reflexivity].
    + rewrite (bind_raise _ _ _ _ _ Hrun).
      destruct (schema_ready d); [discriminate Hout|].
      cbn. split; [exact Hd | eexists; reflexivity].
Qed.

Lemma index_main_existing :
  forall (db : Storage.t) (d : Db.t) (budget : option nat),
    let out := index_main db (Some d) budget in
    if commits db d budget
    then snd out = rebuilt db d
         /\ (budget = None -> fst out = Ok (counts_of (rebuilt db d)))
    else snd out = d /\ exists e, fst out = Raise e.
Proof.
  intros db d budget. exact (index_main_conn_cases db d budget).
Qed.

Lemma index_main_fresh :
  forall db : Storage.t,
    index_main db None None = index_main db (Some fresh_schema) None.
Proof. intros db. reflexivity. Qed.

Lemma index_change_payload :
  forall (prod : Product.t) (changerec : ChangeRecord.t),
    payload_present changerec = true ->
    exists idx_change, index_change prod changerec = Ok idx_change.
Proof.
  intros prod changerec; unfold payload_present, index_change.
  destruct (String.eqb _ "download").
  - destruct (ChangeRecord.download_record changerec); [|discriminate].
    intros _; cbn; eexists; reflexivity.
  - destruct (String.eqb _ "property"); [|intros _; eexists; reflexivity].
    destruct (ChangeRecord.property_record changerec); [|discriminate].
    intros _; cbn; eexists; reflexivity.
Qed.

Lemma changelog_trace_completes :
  forall (prod : Product.t) (changelog : list ChangeRecord.t),
    forallb payload_present changelog = true ->
    snd (changelog_trace prod changelog) = None.
Proof.
  intros prod changelog; induction changelog as [|cr rest IH]; [reflexivity|].
  cbn [forallb changelog_trace]. intros H; apply andb_prop in H as [Hcr Hrest].
  destruct (index_change_payload prod cr Hcr) as [idx ->].
  unfold then_trace; cbn. apply IH, Hrest.
Qed.

Lemma then_trace_snd :
  forall t1 t2 : trace, snd t1 = None -> snd (then_trace t1 t2) = snd t2.
Proof. intros [l1 e1] t2 H; cbn in H; subst e1; reflexivity. Qed.

Lemma ids_trace_completes :
  forall (db : Storage.t),
    (forall prod_id changelog,
        Storage.changelog db prod_id = Some changelog ->
        forallb payload_present changelog = true) ->
    forall (num_ids : Z) (ids : list Z), snd (ids_trace db num_ids ids) = None.
Proof.
  intros db Hall num_ids ids; induction ids as [|prod_id rest IH]; [reflexivity|].
  cbn [ids_trace]. rewrite then_trace_snd; [exact IH|].
  unfold id_trace.
  destruct (Storage.product db prod_id) as [prod|]; [|reflexivity].
  rewrite then_trace_snd by reflexivity.
  destruct (Storage.changelog db prod_id) as [changelog|] eqn:Hlog; [|reflexivity].
  rewrite then_trace_snd; [reflexivity|].
  apply changelog_trace_completes, (Hall prod_id), Hlog.
Qed.

(** C5, as the code has it: the projection of a change record that
    carries the payload its category reads yields a row and raises
    nothing; a record of a category other than [download] and
    [property] always yields a row, with [dl_type], [bonus_type] and
    [property_name] null; and a rebuild over a store all of whose change
    records carry their payloads runs to its end on an index database
    that has its tables. *)
Theorem index_change_total_on_payload :
  (forall (prod : Product.t) (changerec : ChangeRecord.t),
      payload_present changerec = true ->
      exists idx_change, index_change prod changerec = Ok idx_change)
  /\ (forall (prod : Product.t) (changerec : ChangeRecord.t),
        ChangeRecord.category changerec <> "download" ->
        ChangeRecord.category changerec <> "property" ->
        exists idx_change,
          index_change prod changerec = Ok idx_change
          /\ ChangelogRow.dl_type (changelog_row idx_change) = None
          /\ ChangelogRow.bonus_type (changelog_row idx_change) = None
          /\ ChangelogRow.property_name (changelog_row idx_change) = None)
  /\ (forall (db : Storage.t) (d : Db.t),
        (forall prod_id changelog,
            Storage.changelog db prod_id = Some changelog ->
            forallb payload_present changelog = true) ->
        schema_ready d = true ->
        index_main db (Some d) None = (Ok (counts_of (rebuilt db d)), rebuilt db d)).
Proof.
  split; [exact index_change_payload|]. split.
  - intros prod changerec Hd Hp; unfold index_change.
    apply String.eqb_neq in Hd; apply String.eqb_neq in Hp.
    rewrite Hd, Hp. eexists; repeat split.
  - intros db d Hall Hready.
    pose proof (index_main_existing db d None) as H; cbv zeta in H.
    unfold commits, completes, main_trace in H.
    rewrite Hready, (ids_trace_completes db Hall) in H. cbn [andb covers] in H.
    destruct H as [Hs Hf]. specialize (Hf eq_refl).
    rewrite (surjective_pairing (index_main db (Some d) None)), Hs, Hf. reflexivity.
Qed.


(** ** The rebuild as a whole *)


(** C8: a second rebuild from an unchanged primary store leaves the
    index file as the first one left it, table by table and row by row
    (so also as sets of rows), and has the same outcome; this holds
    whether the first run found an index file or created it. *)
Theorem rebuild_idempotent :
  forall (db : Storage.t) (file : option Db.t),
    let first := index_main db file None in
    let second := index_main db (Some (snd first)) None in
    snd second = snd first
    /\ fst second = fst first
    /\ Db.t_products (snd second) = Db.t_products (snd first)
    /\ Db.t_changelog (snd second) = Db.t_changelog (snd first)
    /\ Db.t_summary (snd second) = Db.t_summary (snd first).
Proof.
  intros db file.
  assert (Hd : forall d,
             index_main db (Some (snd (index_main db (Some d) None))) None
             = index_main db (Some d) None).
  { intros d.
    pose proof (index_main_existing db d None) as H; cbv zeta in H.
    destruct (commits db d None) eqn:Hc.
    - destruct H as [Hs Hf]. specialize (Hf eq_refl). rewrite Hs.
      pose proof (index_main_existing db (rebuilt db d) None) as H2; cbv zeta in H2.
      assert (Hc2 : commits db (rebuilt db d) None = true).
      { unfold commits in *. rewrite rebuilt_ready.
        apply andb_prop in Hc as [Hc _]. apply andb_prop in Hc as [_ Hc].
        rewrite Hc. reflexivity. }
      rewrite Hc2, rebuilt_twice in H2. destruct H2 as [Hs2 Hf2].
      specialize (Hf2 eq_refl).
      rewrite (surjective_pairing (index_main db (Some (rebuilt db d)) None)).
      rewrite (surjective_pairing (index_main db (Some d) None)).
      congruence.
    - destruct H as [Hs _]. rewrite Hs. reflexivity. }
  cbv zeta.
  assert (Heq : index_main db (Some (snd (index_main db file None))) None
                = index_main db file None).
  { destruct file as [d|]; [apply Hd|].
    rewrite index_main_fresh. apply Hd. }
  rewrite Heq. repeat split.
Qed.

Lemma then_trace_nil : forall t : trace, then_trace ([], None) t = t.
Proof. intros [l e]; reflexivity. Qed.

Lemma play_inserts_txn :
  forall (t : trace),
    forallb is_insert (fst t) = true ->
    snd t = None ->
    forall (d : Db.t) (p : list ProductsRow.t) (c : list ChangelogRow.t)
           (s : list SummaryRow.t) (idx : list string),
      play t (Conn.mk d (Some (Db.mk (Some p) (Some c) (Some s) idx)) None)
      = (Ok tt,
         Conn.mk d
           (Some (Db.mk (Some (p ++ products_in (fst t)))
                        (Some (c ++ changelog_in (fst t)))
                        (Some (s ++ summary_in (fst t))) idx))
           None).
Proof.
  intros [stmts e] Hins He d p c s idx; cbn in Hins, He; subst e.
  destruct (exec_all_txn stmts (is_insert_is_data stmts Hins) d
              (Db.mk (Some p) (Some c) (Some s) idx) None) as (_ & _ & H).
  rewrite (apply_all_inserts stmts p c s idx Hins) in H. cbn in H.
  unfold play; cbn [fst snd]. rewrite (bind_ok _ _ _ _ _ H). reflexivity.
Qed.

(** C3: when the product loader answers [None] for an id, the loop
    body sends no statement and changes nothing, so no row of any of the
    three tables comes from that id; it raises nothing, and the loop
    goes on with the ids that follow. *)
Theorem absent_product_skipped :
  forall (db : Storage.t) (num_ids prod_id : Z),
    Storage.product db prod_id = None ->
    (forall c : Conn.t, index_id db num_ids prod_id c = (Ok tt, c))
    /\ id_trace db num_ids prod_id = ([], None)
    /\ (forall (rest : list Z) (c : Conn.t),
          for_each (prod_id :: rest) (index_id db num_ids) c
          = for_each rest (index_id db num_ids) c)
    /\ (forall before after : list Z,
          ids_trace db num_ids (before ++ prod_id :: after)
          = ids_trace db num_ids (before ++ after)).
Proof.
  intros db num_ids prod_id Habs.
  assert (Ht : id_trace db num_ids prod_id = ([], None))
    by (unfold id_trace; rewrite Habs; reflexivity).
  assert (Hb : forall c, index_id db num_ids prod_id c = (Ok tt, c))
    by (intros c; unfold index_id; rewrite Habs; reflexivity).
  repeat split.
  - exact Hb.
  - exact Ht.
  - intros rest c. cbn [for_each]. rewrite (bind_ok _ _ _ _ _ (Hb c)). reflexivity.
  - intros before after; induction before as [|x before IH]; cbn [app ids_trace].
    + rewrite Ht. apply then_trace_nil.
    + rewrite IH. reflexivity.
Qed.

(** C7: when the product of an id loads and the changelog loader
    answers [None], the loop body is the insert of the product row and
    nothing else: inside the transaction the product row is appended to
    [products], [changelog] and [changelog_summary] stay as they are,
    nothing is raised, and the loop goes on with the ids that follow. *)
Theorem absent_changelog_keeps_product :
  forall (db : Storage.t) (num_ids prod_id : Z) (prod : Product.t),
    Storage.product db prod_id = Some prod ->
    Storage.changelog db prod_id = None ->
    (forall c : Conn.t, index_id db num_ids prod_id c = index_product prod num_ids c)
    /\ id_trace db num_ids prod_id
       = ([INSERT_INTO_products (product_row prod num_ids)], None)
    /\ (forall (d : Db.t) (p : list ProductsRow.t) (c : list ChangelogRow.t)
               (s : list SummaryRow.t) (idx : list string),
          index_id db num_ids prod_id
            (Conn.mk d (Some (Db.mk (Some p) (Some c) (Some s) idx)) None)
          = (Ok tt,
             Conn.mk d
               (Some (Db.mk (Some (p ++ [product_row prod num_ids])) (Some c) (Some s) idx))
               None))
    /\ (forall (rest : list Z) (c : Conn.t),
          for_each (prod_id :: rest) (index_id db num_ids) c
          = bind (index_product prod num_ids)
                 (fun _ => for_each rest (index_id db num_ids)) c).
Proof.
  intros db num_ids prod_id prod Hprod Hlog.
  assert (Hb : forall c, index_id db num_ids prod_id c = index_product prod num_ids c).
  { intros c; unfold index_id, index_product; rewrite Hprod, Hlog.
    rewrite bind_assoc. apply bind_cong; reflexivity. }
  repeat split.
  - exact Hb.
  - unfold id_trace; rewrite Hprod, Hlog; reflexivity.
  - intros d p c s idx. rewrite Hb. reflexivity.
  - intros rest c. cbn [for_each]. apply bind_cong; [apply Hb | reflexivity].
Qed.

(** ** [sorted] *)

Lemma insort_perm :
  forall {A} (leb : A -> A -> bool) (x : A) (l : list A),
    Permutation (x :: l) (insort leb x l).
Proof.
  intros A leb x l; induction l as [|y r IH]; cbn.
  - apply Permutation_refl.
  - destruct (leb x y); [apply Permutation_refl|].
    eapply perm_trans; [apply perm_swap | apply perm_skip, IH].
Qed.

Lemma sorted_perm :
  forall {A} (leb : A -> A -> bool) (l : list A), Permutation l (sorted leb l).
Proof.
  intros A leb l; induction l as [|x r IH]; cbn.
  - apply perm_nil.
  - eapply perm_trans; [apply perm_skip, IH | apply insort_perm].
Qed.

Lemma insort_sorted :
  forall {A} (leb : A -> A -> bool),
    (forall a b, leb a b = true \/ leb b a = true) ->
    (forall a b c, leb a b = true -> leb b c = true -> leb a c = true) ->
    forall (x : A) (l : list A),
      StronglySorted (fun a b => leb a b = true) l ->
      StronglySorted (fun a b => leb a b = true) (insort leb x l).
Proof.
  intros A leb Htot Htrans x l Hl; induction Hl as [|y r Hr IH Hy]; cbn.
  - constructor; constructor.
  - destruct (leb x y) eqn:Hxy.
    + constructor; [constructor; assumption|].
      constructor; [exact Hxy|].
      eapply Forall_impl; [|exact Hy]. intros z Hz; eapply Htrans; eassumption.
    + constructor; [exact IH|].
      eapply Permutation_Forall; [apply insort_perm|].
      constructor; [|exact Hy].
      destruct (Htot x y) as [H|H]; [congruence | exact H].
Qed.

Lemma sorted_sorted :
  forall {A} (leb : A -> A -> bool),
    (forall a b, leb a b = true \/ leb b a = true) ->
    (forall a b c, leb a b = true -> leb b c = true -> leb a c = true) ->
    forall l : list A, StronglySorted (fun a b => leb a b = true) (sorted leb l).
Proof.
  intros A leb Htot Htrans l; induction l as [|x r IH]; cbn.
  - constructor.
  - apply insort_sorted; assumption.
Qed.

Lemma strongly_sorted_unique :
  forall {A} (leb : A -> A -> bool),
    (forall a b, leb a b = true -> leb b a = true -> a = b) ->
    forall l1 l2 : list A,
      StronglySorted (fun a b => leb a b = true) l1 ->
      StronglySorted (fun a b => leb a b = true) l2 ->
      Permutation l1 l2 ->
      l1 = l2.
Proof.
  intros A leb Hanti l1; induction l1 as [|x r1 IH]; intros l2 H1 H2 Hp.
  - apply Permutation_nil in Hp. congruence.
  - destruct l2 as [|y r2]; [apply Permutation_sym, Permutation_nil in Hp; discriminate|].
    inversion H1 as [|? ? Hr1 Hx]; subst.
    inversion H2 as [|? ? Hr2 Hy]; subst.
    assert (Hxy : x = y).
    { assert (Hin1 : In x (y :: r2))
        by (eapply Permutation_in; [exact Hp | left; reflexivity]).
      assert (Hin2 : In y (x :: r1))
        by (eapply Permutation_in; [apply Permutation_sym, Hp | left; reflexivity]).
      destruct Hin1 as [E|Hin1]; [congruence|].
      destruct Hin2 as [E|Hin2]; [congruence|].
      rewrite Forall_forall in Hx, Hy.
      apply Hanti; [apply Hx, Hin2 | apply Hy, Hin1]. }
    subst y. f_equal.
    apply IH; [assumption | assumption | eapply Permutation_cons_inv; exact Hp].
Qed.

Lemma string_leb_iff :
  forall a b : string, String.leb a b = true <-> a = b \/ String_as_OT.lt a b.
Proof.
  forget_env.
  intros a b; unfold String.leb.
  destruct (String.compare a b) eqn:Hc.
  - apply String.compare_eq_iff in Hc. tauto.
  - apply String_as_OT.cmp_lt in Hc. tauto.
  - split; [discriminate|]. intros [E|L].
    + apply String_as_OT.cmp_eq in E. unfold String_as_OT.cmp in E.
      rewrite Hc in E; discriminate E.
    + apply String_as_OT.cmp_lt in L. unfold String_as_OT.cmp in L.
      rewrite Hc in L; discriminate L.
Qed.

Lemma string_leb_trans :
  forall a b c : string,
    String.leb a b = true -> String.leb b c = true -> String.leb a c = true.
Proof.
  intros a b c Hab Hbc.
  apply string_leb_iff in Hab; apply string_leb_iff in Hbc; apply string_leb_iff.
  destruct Hab as [->|Hab]; [exact Hbc|].
  destruct Hbc as [<-|Hbc]; [right; exact Hab|].
  right. eapply String_as_OT.lt_trans; eassumption.
Qed.

Lemma sorted_strings_unique :
  forall l l' : list string,
    Permutation l l' -> sorted String.leb l = sorted String.leb l'.
Proof.
  intros l l' Hp.
  apply (strongly_sorted_unique String.leb String.leb_antisym).
  - apply sorted_sorted; [apply String.leb_total | apply string_leb_trans].
  - apply sorted_sorted; [apply String.leb_total | apply string_leb_trans].
  - eapply perm_trans; [apply Permutation_sym, sorted_perm|].
    eapply perm_trans; [exact Hp | apply sorted_perm].
Qed.

(** ** The summary aggregator *)

Lemma summaries_add_notin :
  forall (l : list (datetime * list string)) (ts : datetime) (cat : string),
    ~ In ts (map fst l) ->
    summaries_add l ts cat = l ++ [(ts, set_add_str cat [])].
Proof.
  induction l as [|[t s] r IH]; intros ts cat Hn; cbn.
  - reflexivity.
  - destruct (Z.eqb_spec t ts) as [E|E].
    + exfalso; apply Hn; left; exact E.
    + rewrite IH; [reflexivity|]. intros H; apply Hn; right; exact H.
Qed.

Lemma summaries_add_in :
  forall (l : list (datetime * list string)) (ts : datetime) (cat : string),
    NoDup (map fst l) ->
    In ts (map fst l) ->
    summaries_add l ts cat
    = map (fun item =>
             if Z.eqb (fst item) ts
             then (fst item, set_add_str cat (snd item))
             else item) l.
Proof.
  induction l as [|[t s] r IH]; intros ts cat Hnd Hin; cbn in *.
  - contradiction.
  - inversion Hnd as [|? ? Hnt Hnd']; subst.
    destruct (Z.eqb_spec t ts) as [E|E].
    + subst t. f_equal.
      rewrite <- (map_id r) at 1. apply map_ext_in.
      intros [t' s'] Hin'. cbn.
      destruct (Z.eqb_spec t' ts) as [E'|E']; [|reflexivity].
      exfalso; apply Hnt. subst t'. apply (in_map fst) in Hin'. exact Hin'.
    + f_equal. apply IH; [exact Hnd'|]. destruct Hin as [H|H]; [contradiction | exact H].
Qed.

Lemma distinct_timestamps_In :
  forall (changelog : list ChangeRecord.t) (t : datetime),
    In t (distinct_timestamps changelog)
    <-> In t (map ChangeRecord.timestamp changelog).
Proof.
  forget_env.
  induction changelog as [|cr rest IH]; intros t; cbn; [tauto|].
  rewrite filter_In, IH, negb_true_iff, Z.eqb_neq.
  destruct (Z.eq_dec (ChangeRecord.timestamp cr) t); intuition congruence.
Qed.

Lemma distinct_timestamps_NoDup :
  forall changelog : list ChangeRecord.t, NoDup (distinct_timestamps changelog).
Proof.
  induction changelog as [|cr rest IH]; cbn; constructor.
  - rewrite filter_In, negb_true_iff, Z.eqb_neq. intros [_ H]; apply H; reflexivity.
  - apply NoDup_filter, IH.
Qed.

Lemma distinct_timestamps_snoc :
  forall (changelog : list ChangeRecord.t) (cr : ChangeRecord.t),
    distinct_timestamps (changelog ++ [cr])
    = distinct_timestamps changelog
      ++ (if in_dec Z.eq_dec (ChangeRecord.timestamp cr)
               (map ChangeRecord.timestamp changelog)
          then [] else [ChangeRecord.timestamp cr]).
Proof.
  induction changelog as [|h rest IH]; intros cr; cbn [app distinct_timestamps map].
  - reflexivity.
  - rewrite IH, filter_app. f_equal. f_equal.
    set (ts := ChangeRecord.timestamp cr). set (th := ChangeRecord.timestamp h).
    destruct (in_dec Z.eq_dec ts (map ChangeRecord.timestamp rest)) as [Hin|Hn];
      destruct (in_dec Z.eq_dec ts (th :: map ChangeRecord.timestamp rest))
        as [Hin'|Hn']; cbn.
    + reflexivity.
    + exfalso; apply Hn'; right; exact Hin.
    + destruct Hin' as [E|Hin']; [|contradiction].
      rewrite E, Z.eqb_refl. reflexivity.
    + destruct (Z.eqb_spec ts th) as [E|E]; [|reflexivity].
      exfalso; apply Hn'; left; symmetry; exact E.
Qed.

Lemma categories_at_snoc :
  forall (changelog : list ChangeRecord.t) (cr : ChangeRecord.t) (t : datetime),
    categories_at (changelog ++ [cr]) t
    = categories_at changelog t
      ++ (if Z.eqb (ChangeRecord.timestamp cr) t then [ChangeRecord.category cr] else []).
Proof.
  intros changelog cr t; unfold categories_at.
  rewrite filter_app, map_app; cbn.
  destruct (Z.eqb (ChangeRecord.timestamp cr) t); reflexivity.
Qed.

Lemma categories_at_notin :
  forall (changelog : list ChangeRecord.t) (t : datetime),
    ~ In t (map ChangeRecord.timestamp changelog) -> categories_at changelog t = [].
Proof.
  induction changelog as [|cr rest IH]; intros t Hn; [reflexivity|].
  unfold categories_at in *; cbn in *.
  destruct (Z.eqb_spec (ChangeRecord.timestamp cr) t) as [E|E].
  - exfalso; apply Hn; left; exact E.
  - apply IH. intros H; apply Hn; right; exact H.
Qed.

Lemma categories_at_In :
  forall (changelog : list ChangeRecord.t) (t : datetime) (c : string),
    In c (categories_at changelog t)
    <-> exists cr, In cr changelog
                   /\ ChangeRecord.timestamp cr = t /\ ChangeRecord.category cr = c.
Proof.
  intros changelog t c; unfold categories_at. rewrite in_map_iff. split.
  - intros (cr & Hc & Hin). apply filter_In in Hin as [Hin Ht].
    apply Z.eqb_eq in Ht. exists cr; auto.
  - intros (cr & Hin & Ht & Hc). exists cr; split; [exact Hc|].
    apply filter_In; split; [exact Hin | apply Z.eqb_eq; exact Ht].
Qed.

Lemma set_of_snoc :
  forall (l : list string) (c : string), set_of (l ++ [c]) = set_add_str c (set_of l).
Proof. intros l c; unfold set_of; rewrite fold_left_app; reflexivity. Qed.

Lemma summaries_of_spec :
  forall changelog : list ChangeRecord.t,
    summaries_of changelog
    = map (fun t => (t, set_of (categories_at changelog t)))
          (distinct_timestamps changelog).
Proof.
  induction changelog as [|cr changelog IH] using rev_ind; [reflexivity|].
  unfold summaries_of, summaries_from in *. rewrite fold_left_app; cbn [fold_left].
  rewrite IH, distinct_timestamps_snoc.
  destruct (in_dec Z.eq_dec _ _) as [Hin|Hn].
  - rewrite app_nil_r, summaries_add_in.
    + rewrite map_map. apply map_ext. intros t; cbn [fst snd].
      rewrite categories_at_snoc, (Z.eqb_sym t).
      destruct (Z.eqb (ChangeRecord.timestamp cr) t).
      * rewrite set_of_snoc. reflexivity.
      * rewrite app_nil_r. reflexivity.
    + rewrite map_map; cbn. rewrite map_id. apply distinct_timestamps_NoDup.
    + rewrite map_map; cbn. rewrite map_id. apply distinct_timestamps_In, Hin.
  - rewrite summaries_add_notin.
    + rewrite map_app; cbn [map]. f_equal.
      * apply map_ext_in. intros t Ht.
        rewrite categories_at_snoc.
        destruct (Z.eqb_spec (ChangeRecord.timestamp cr) t) as [E|E].
        -- exfalso; apply Hn. rewrite E. apply distinct_timestamps_In, Ht.
        -- rewrite app_nil_r. reflexivity.
      * rewrite categories_at_snoc, Z.eqb_refl, (categories_at_notin _ _ Hn).
        reflexivity.
    + rewrite map_map; cbn. rewrite map_id.
      intros H; apply Hn, distinct_timestamps_In, H.
Qed.

Lemma set_of_In :
  forall (l : list string) (c : string), In c (set_of l) <-> In c l.
Proof.
  forget_env.
  induction l as [|x l IH] using rev_ind; intros c; [cbn; tauto|].
  rewrite set_of_snoc. unfold set_add_str. rewrite set_add_iff, IH, in_app_iff; cbn.
  intuition.
Qed.

Lemma set_of_NoDup : forall l : list string, NoDup (set_of l).
Proof.
  induction l as [|x l IH] using rev_ind; [constructor|].
  rewrite set_of_snoc. apply set_add_nodup, IH.
Qed.

Lemma sorted_set_of :
  forall l : list string,
    sorted String.leb (set_of l) = sorted String.leb (nodup string_dec l).
Proof.
  forget_env.
  intros l. apply sorted_strings_unique, NoDup_Permutation.
  - apply set_of_NoDup.
  - apply NoDup_nodup.
  - intros c. rewrite set_of_In, nodup_In. tauto.
Qed.

Lemma summary_rows_expected :
  forall (prod : Product.t) (changelog : list ChangeRecord.t),
    summary_in (fst (summary_trace prod changelog))
    = expected_summary_rows prod changelog.
Proof.
  intros prod changelog; unfold summary_trace, expected_summary_rows; cbn [fst].
  rewrite summaries_of_spec, map_map.
  induction (distinct_timestamps changelog) as [|t r IH]; [reflexivity|].
  cbn. unfold summary_row at 1; cbn [fst snd].
  rewrite sorted_set_of. f_equal. exact IH.
Qed.

Lemma changelog_trace_rows :
  forall (prod : Product.t) (changelog : list ChangeRecord.t),
    products_in (fst (changelog_trace prod changelog)) = []
    /\ summary_in (fst (changelog_trace prod changelog)) = [].
Proof.
  intros prod changelog; induction changelog as [|cr rest [IH1 IH2]];
    [split; reflexivity|].
  cbn [changelog_trace].
  destruct (index_change prod cr); [|split; reflexivity].
  unfold then_trace; cbn. split; assumption.
Qed.

Lemma summary_trace_rows :
  forall (prod : Product.t) (changelog : list ChangeRecord.t),
    products_in (fst (summary_trace prod changelog)) = []
    /\ changelog_in (fst (summary_trace prod changelog)) = [].
Proof.
  intros prod changelog; unfold summary_trace; cbn [fst].
  induction (summaries_of changelog) as [|item r [IH1 IH2]]; split;
    try reflexivity; assumption.
Qed.

(** C4: the summary rows written for a product are one row per
    distinct timestamp of its change records, in order of first
    occurrence, and the [categories] of the row of a timestamp is the
    comma-joined list of the categories of the records at that
    timestamp, sorted in ascending order and without repetition.  When
    every record carries its payload, [index_changelog] appends just
    these rows to [changelog_summary]. *)
Theorem summary_rows_per_timestamp :
  forall (prod : Product.t) (changelog : list ChangeRecord.t),
    summary_in (fst (summary_trace prod changelog))
    = expected_summary_rows prod changelog
    /\ List.length (expected_summary_rows prod changelog)
       = List.length (distinct_timestamps changelog)
    /\ NoDup (distinct_timestamps changelog)
    /\ (forall t,
          In t (distinct_timestamps changelog)
          <-> exists cr, In cr changelog /\ ChangeRecord.timestamp cr = t)
    /\ (forall t,
          let cats := sorted String.leb (nodup string_dec (categories_at changelog t)) in
          StronglySorted (fun a b => String.leb a b = true) cats
          /\ NoDup cats
          /\ forall c,
               In c cats
               <-> exists cr, In cr changelog
                              /\ ChangeRecord.timestamp cr = t
                              /\ ChangeRecord.category cr = c)
    /\ (forallb payload_present changelog = true ->
        forall (d : Db.t) (p : list ProductsRow.t) (c : list ChangelogRow.t)
               (s : list SummaryRow.t) (idx : list string),
          index_changelog prod changelog
            (Conn.mk d (Some (Db.mk (Some p) (Some c) (Some s) idx)) None)
          = (Ok tt,
             Conn.mk d
               (Some (Db.mk (Some p)
                        (Some (c ++ changelog_in (fst (changelog_trace prod changelog))))
                        (Some (s ++ expected_summary_rows prod changelog)) idx))
               None)).
Proof.
  intros prod changelog.
  split; [apply summary_rows_expected|].
  split; [unfold expected_summary_rows; apply length_map|].
  split; [apply distinct_timestamps_NoDup|].
  split.
  { intros t. rewrite distinct_timestamps_In, in_map_iff.
    split; intros (cr & H1 & H2); exists cr; auto. }
  split.
  { intros t cats; subst cats. repeat split.
    - apply sorted_sorted; [apply String.leb_total | apply string_leb_trans].
    - eapply Permutation_NoDup; [apply sorted_perm | apply NoDup_nodup].
    - intros H. apply categories_at_In. rewrite <- (nodup_In string_dec).
      eapply Permutation_in; [apply Permutation_sym, sorted_perm | exact H].
    - intros H. apply categories_at_In in H. rewrite <- (nodup_In string_dec) in H.
      eapply Permutation_in; [apply sorted_perm | exact H]. }
  intros Hp d p c s idx.
  rewrite index_changelog_play.
  pose proof (changelog_trace_completes prod changelog Hp) as Hnone.
  destruct (changelog_trace_rows prod changelog) as [Hcp Hcs].
  destruct (summary_trace_rows prod changelog) as [Hsp Hsc].
  rewrite play_inserts_txn.
  - unfold then_trace; rewrite Hnone; cbn [fst].
    unfold products_in, changelog_in, summary_in in *.
    rewrite !flat_map_app, Hcp, Hcs, Hsp, Hsc.
    cbn [app]. rewrite !app_nil_r.
    rewrite <- summary_rows_expected. reflexivity.
  - apply then_trace_inserts; [apply changelog_trace_inserts | apply summary_trace_inserts].
  - unfold then_trace; rewrite Hnone; reflexivity.
Qed.

(** ** [json.dumps] with [sort_keys=True] and [ensure_ascii=False] *)

Lemma json_induction :
  forall P : Json.value -> Prop,
    P Json.JNull ->
    (forall b, P (Json.JBool b)) ->
    (forall z, P (Json.JInt z)) ->
    (forall s, P (Json.JStr s)) ->
    (forall l, Forall P l -> P (Json.JList l)) ->
    (forall items, Forall (fun kv => P (snd kv)) items -> P (Json.JDict items)) ->
    forall v, P v.
Proof.
  intros P HN HB HI HS HL HD. fix IH 1. intros [|b|z|s|l|items].
  - exact HN.
  - apply HB.
  - apply HI.
  - apply HS.
  - apply HL. induction l as [|x r IHr]; constructor; [apply IH | exact IHr].
  - apply HD. induction items as [|kv r IHr]; constructor; [apply IH | exact IHr].
Qed.

Lemma key_leb_total :
  forall a b : string * Json.value, Json.key_leb a b = true \/ Json.key_leb b a = true.
Proof. intros a b; apply String.leb_total. Qed.

Lemma key_leb_trans :
  forall a b c : string * Json.value,
    Json.key_leb a b = true -> Json.key_leb b c = true -> Json.key_leb a c = true.
Proof. intros a b c; apply string_leb_trans. Qed.

Lemma keys_sorted_values :
  forall items : list (string * Json.value),
    fold_right (fun kv P => Json.keys_sorted (snd kv) /\ P) True items
    <-> Forall (fun kv => Json.keys_sorted (snd kv)) items.
Proof.
  induction items as [|kv r IH]; cbn.
  - split; [constructor | trivial].
  - rewrite IH. split.
    + intros [H1 H2]; constructor; assumption.
    + intros H; inversion H; subst; split; assumption.
Qed.

Lemma keys_sorted_elements :
  forall l : list Json.value,
    fold_right (fun x P => Json.keys_sorted x /\ P) True l
    <-> Forall Json.keys_sorted l.
Proof.
  induction l as [|x r IH]; cbn.
  - split; [constructor | trivial].
  - rewrite IH. split.
    + intros [H1 H2]; constructor; assumption.
    + intros H; inversion H; subst; split; assumption.
Qed.

Lemma sort_keys_sorted : forall v : Json.value, Json.keys_sorted (Json.sort_keys v).
Proof.
  induction v as [| | | |l IH|items IH] using json_induction; cbn [Json.sort_keys];
    try exact I.
  - cbn [Json.keys_sorted]. apply keys_sorted_elements.
    induction IH as [|x r Hx Hr IHr]; constructor; assumption.
  - cbn [Json.keys_sorted]. split.
    + apply StronglySorted_Sorted.
      set (mid := map (fun kv => (fst kv, Json.sort_keys (snd kv))) items).
      pose proof (sorted_sorted Json.key_leb key_leb_total key_leb_trans mid) as Hs.
      induction Hs as [|kv r Hr IHr Hkv]; cbn; constructor; [exact IHr|].
      rewrite Forall_map. exact Hkv.
    + apply keys_sorted_values.
      eapply Permutation_Forall; [apply sorted_perm|].
      rewrite Forall_map. cbn [snd]. exact IH.
Qed.

Lemma sort_keys_same : forall v : Json.value, Json.same v (Json.sort_keys v).
Proof.
  induction v as [| | | |l IH|items IH] using json_induction; cbn [Json.sort_keys];
    try constructor.
  - induction IH as [|x r Hx Hr IHr]; constructor; assumption.
  - eapply Json.same_dict; [|apply sorted_perm].
    induction IH as [|kv r Hkv Hr IHr]; constructor; [|exact IHr].
    cbn. split; [reflexivity | exact Hkv].
Qed.

Lemma keep_app :
  forall (f : ascii -> bool) (s1 s2 : string),
    keep f (s1 ++ s2)%string = (keep f s1 ++ keep f s2)%string.
Proof.
  intros f s1 s2; induction s1 as [|a r IH]; cbn; [reflexivity|].
  destruct (f a); cbn; rewrite IH; reflexivity.
Qed.

Lemma keep_escape_char :
  forall a : ascii,
    keep non_ascii (Json.escape_char a) = keep non_ascii (String a "").
Proof.
  intros [[] [] [] [] [] [] [] []]; reflexivity.
Qed.

(** A character outside the class of escaped characters is copied. *)
Lemma escape_char_copies :
  forall a : ascii, Json.needs_escape a = false -> Json.escape_char a = String a "".
Proof.
  intros [[] [] [] [] [] [] [] []]; cbn; intros H; try discriminate H; reflexivity.
Qed.

Lemma non_ascii_not_escaped :
  forall a : ascii, non_ascii a = true -> Json.needs_escape a = false.
Proof.
  intros [[] [] [] [] [] [] [] []]; cbn; intros H; try discriminate H; reflexivity.
Qed.

Lemma keep_escape :
  forall s : string, keep non_ascii (Json.escape s) = keep non_ascii s.
Proof.
  induction s as [|a r IH]; [reflexivity|].
  cbn [Json.escape]. rewrite keep_app, keep_escape_char, IH. cbn [keep].
  destruct (non_ascii a); reflexivity.
Qed.

Lemma keep_encode_basestring :
  forall s : string, keep non_ascii (Json.encode_basestring s) = keep non_ascii s.
Proof.
  intros s; unfold Json.encode_basestring.
  change (keep non_ascii (String Json.dquote (Json.escape s ++ String Json.dquote "")))
    with (keep non_ascii (Json.escape s ++ String Json.dquote "")).
  rewrite keep_app, keep_escape.
  change (keep non_ascii (String Json.dquote "")) with "".
  induction (keep non_ascii s) as [|a r IH]; cbn [append];
    [reflexivity | rewrite IH; reflexivity].
Qed.

Lemma keep_string_of_uint :
  forall d : Decimal.uint, keep non_ascii (NilEmpty.string_of_uint d) = "".
Proof. induction d; cbn; assumption || reflexivity. Qed.

Lemma keep_encode_int : forall z : Z, keep non_ascii (Json.encode_int z) = "".
Proof.
  intros z; unfold Json.encode_int.
  destruct (Z.to_int z) as [d|d]; cbn; apply keep_string_of_uint.
Qed.

Lemma append_empty_r : forall s : string, (s ++ "")%string = s.
Proof. induction s as [|a r IH]; cbn; [reflexivity | rewrite IH; reflexivity]. Qed.

Lemma append_assoc :
  forall s1 s2 s3 : string, ((s1 ++ s2) ++ s3)%string = (s1 ++ s2 ++ s3)%string.
Proof.
  intros s1 s2 s3; induction s1 as [|a r IH]; cbn; [reflexivity | rewrite IH; reflexivity].
Qed.

Lemma concat_empty_cons :
  forall (y : string) (l : list string),
    String.concat "" (y :: l) = (y ++ String.concat "" l)%string.
Proof.
  intros y [|z l]; cbn; [rewrite append_empty_r|]; reflexivity.
Qed.

Lemma concat_empty_app :
  forall l1 l2 : list string,
    String.concat "" (l1 ++ l2) = (String.concat "" l1 ++ String.concat "" l2)%string.
Proof.
  induction l1 as [|x r IH]; intros l2; [reflexivity|].
  cbn [app]. rewrite !concat_empty_cons, IH, append_assoc. reflexivity.
Qed.

Lemma keep_join_ascii :
  forall (sep : string) (l : list string),
    keep non_ascii sep = "" ->
    keep non_ascii (join sep l) = String.concat "" (map (keep non_ascii) l).
Proof.
  intros sep l Hsep; unfold join; induction l as [|x r IH]; [reflexivity|].
  destruct r as [|y r]; [reflexivity|].
  change (String.concat sep (x :: y :: r))
    with (x ++ sep ++ String.concat sep (y :: r))%string.
  rewrite !keep_app, Hsep, IH. cbn [map]. rewrite !concat_empty_cons. reflexivity.
Qed.

Lemma keep_encode :
  forall v : Json.value,
    keep non_ascii (Json.encode v)
    = String.concat "" (map (keep non_ascii) (Json.texts v)).
Proof.
  induction v as [|b|z|s|l IH|items IH] using json_induction.
  - reflexivity.
  - destruct b; reflexivity.
  - apply keep_encode_int.
  - cbn [Json.encode Json.texts map]. rewrite keep_encode_basestring. reflexivity.
  - cbn [Json.encode Json.texts]. rewrite !keep_app, keep_join_ascii by reflexivity.
    change (keep non_ascii "[") with "". change (keep non_ascii "]") with "".
    cbn [append]. rewrite append_empty_r.
    induction IH as [|x r Hx Hr IHr]; [reflexivity|].
    cbn [map flat_map].
    rewrite map_app, concat_empty_app, concat_empty_cons, Hx, IHr. reflexivity.
  - cbn [Json.encode Json.texts]. rewrite !keep_app, keep_join_ascii by reflexivity.
    change (keep non_ascii "{") with "". change (keep non_ascii "}") with "".
    cbn [append]. rewrite append_empty_r.
    induction IH as [|kv r Hkv Hr IHr]; [reflexivity|].
    cbn [map flat_map app].
    rewrite !concat_empty_cons, map_app, concat_empty_app, IHr.
    rewrite keep_app, keep_encode_basestring.
    change (keep non_ascii (String ":" (String " " (Json.encode (snd kv)))))
      with (keep non_ascii (Json.encode (snd kv))).
    rewrite Hkv, append_assoc. reflexivity.
Qed.



(** * Further properties of the indexer *)

(** ** The tables a rebuild leaves *)

Lemma then_trace_none :
  forall t1 t2 : trace,
    snd (then_trace t1 t2) = None ->
    snd t1 = None /\ snd t2 = None
    /\ fst (then_trace t1 t2) = fst t1 ++ fst t2.
Proof.
  intros [l1 [e|]] [l2 e2]; unfold then_trace; cbn; intros H.
  - discriminate H.
  - repeat split. exact H.
Qed.

Lemma changelog_trace_rows_for :
  forall (prod : Product.t) (changelog : list ChangeRecord.t),
    snd (changelog_trace prod changelog) = None ->
    changelog_in (fst (changelog_trace prod changelog))
    = changelog_rows_for prod changelog.
Proof.
  intros prod changelog; induction changelog as [|cr rest IH]; [reflexivity|].
  cbn [changelog_trace]. unfold changelog_rows_for in *; cbn [flat_map].
  destruct (index_change prod cr) as [idx|e]; [|discriminate].
  intros H. apply then_trace_none in H as (_ & Hrest & ->).
  cbn. f_equal. apply IH, Hrest.
Qed.

Lemma id_trace_rows :
  forall (db : Storage.t) (num_ids prod_id : Z),
    snd (id_trace db num_ids prod_id) = None ->
    products_in (fst (id_trace db num_ids prod_id)) = product_rows_of db num_ids prod_id
    /\ changelog_in (fst (id_trace db num_ids prod_id)) = changelog_rows_of db prod_id
    /\ summary_in (fst (id_trace db num_ids prod_id)) = summary_rows_of db prod_id.
Proof.
  intros db num_ids prod_id.
  unfold id_trace, product_rows_of, changelog_rows_of, summary_rows_of.
  destruct (Storage.product db prod_id) as [prod|]; [|repeat split].
  destruct (Storage.changelog db prod_id) as [changelog|]; [|repeat split].
  intros H. apply then_trace_none in H as (_ & H & ->).
  apply then_trace_none in H as (Hc & _ & ->).
  destruct (changelog_trace_rows prod changelog) as [Hcp Hcs].
  destruct (summary_trace_rows prod changelog) as [Hsp Hsc].
  unfold products_in, changelog_in, summary_in in *.
  cbn [fst flat_map app]. rewrite !flat_map_app, Hcp, Hcs, Hsp, Hsc.
  repeat split.
  - rewrite app_nil_r. apply changelog_trace_rows_for, Hc.
  - apply summary_rows_expected.
Qed.

Lemma ids_trace_rows :
  forall (db : Storage.t) (num_ids : Z) (ids : list Z),
    snd (ids_trace db num_ids ids) = None ->
    products_in (fst (ids_trace db num_ids ids))
    = flat_map (product_rows_of db num_ids) ids
    /\ changelog_in (fst (ids_trace db num_ids ids))
       = flat_map (changelog_rows_of db) ids
    /\ summary_in (fst (ids_trace db num_ids ids))
       = flat_map (summary_rows_of db) ids.
Proof.
  intros db num_ids ids; induction ids as [|prod_id rest IH]; [repeat split|].
  cbn [ids_trace flat_map]. intros H.
  apply then_trace_none in H as (Hid & Hrest & ->).
  destruct (id_trace_rows db num_ids prod_id Hid) as (H1 & H2 & H3).
  destruct (IH Hrest) as (I1 & I2 & I3).
  unfold products_in, changelog_in, summary_in in *.
  rewrite !flat_map_app, H1, H2, H3, I1, I2, I3. repeat split.
Qed.

(** X1: a rebuild that meets no malformed record, on an index database
    that has its tables, replaces the three tables by the rows of the
    ids in the order of the id list: for each id whose product loads
    its product row, ranked against the length of the whole id list, and,
    when its changelog loads too, one changelog row per change record
    and the summary rows of that changelog.  An id listed twice gives
    its rows twice; nothing of the old rows is kept; the indexes stay. *)
Theorem rebuild_tables :
  forall (db : Storage.t) (d : Db.t),
    schema_ready d = true ->
    completes db = true ->
    let num_ids := Z.of_nat (List.length (Storage.ids db)) in
    snd (index_main db (Some d) None)
    = Db.mk (Some (flat_map (product_rows_of db num_ids) (Storage.ids db)))
            (Some (flat_map (changelog_rows_of db) (Storage.ids db)))
            (Some (flat_map (summary_rows_of db) (Storage.ids db)))
            (Db.indexes d).
Proof.
  intros db d Hready Hdone num_ids.
  pose proof (index_main_existing db d None) as H; cbv zeta in H.
  unfold commits in H. rewrite Hready, Hdone in H. cbn [andb covers] in H.
  destruct H as [-> _].
  unfold completes in Hdone.
  destruct (snd (main_trace db)) eqn:Hsnd; [discriminate Hdone|].
  destruct (ids_trace_rows db num_ids (Storage.ids db) Hsnd) as (H1 & H2 & H3).
  unfold rebuilt, main_trace. fold num_ids. rewrite H1, H2, H3. reflexivity.
Qed.

(** ** The counts a rebuild prints *)

Lemma distinct_timestamps_length :
  forall changelog : list ChangeRecord.t,
    (List.length (distinct_timestamps changelog) <= List.length changelog)%nat.
Proof.
  induction changelog as [|cr rest IH]; cbn; [lia|].
  apply le_n_S. eapply Nat.le_trans; [apply filter_length_le | exact IH].
Qed.

Lemma changelog_rows_for_length :
  forall (prod : Product.t) (changelog : list ChangeRecord.t),
    snd (changelog_trace prod changelog) = None ->
    List.length (changelog_rows_for prod changelog) = List.length changelog.
Proof.
  intros prod changelog; induction changelog as [|cr rest IH]; [reflexivity|].
  cbn [changelog_trace]. unfold changelog_rows_for in *; cbn [flat_map].
  destruct (index_change prod cr) as [idx|e]; [|discriminate].
  intros H. apply then_trace_none in H as (_ & Hrest & _).
  cbn. f_equal. apply IH, Hrest.
Qed.

Lemma ids_trace_each :
  forall (db : Storage.t) (num_ids : Z) (ids : list Z),
    snd (ids_trace db num_ids ids) = None ->
    forall prod_id, In prod_id ids -> snd (id_trace db num_ids prod_id) = None.
Proof.
  intros db num_ids ids; induction ids as [|x rest IH]; intros H prod_id Hin.
  - contradiction.
  - cbn [ids_trace] in H. apply then_trace_none in H as (Hx & Hrest & _).
    destruct Hin as [<-|Hin]; [exact Hx | apply IH; assumption].
Qed.

Lemma id_trace_summary_le :
  forall (db : Storage.t) (num_ids prod_id : Z),
    snd (id_trace db num_ids prod_id) = None ->
    (List.length (summary_rows_of db prod_id)
     <= List.length (changelog_rows_of db prod_id))%nat.
Proof.
  intros db num_ids prod_id.
  unfold id_trace, summary_rows_of, changelog_rows_of.
  destruct (Storage.product db prod_id) as [prod|]; [|cbn; lia].
  destruct (Storage.changelog db prod_id) as [changelog|]; [|cbn; lia].
  intros H. apply then_trace_none in H as (_ & H & _).
  apply then_trace_none in H as (Hc & _ & _).
  rewrite (changelog_rows_for_length prod changelog Hc).
  unfold expected_summary_rows. rewrite length_map.
  apply distinct_timestamps_length.
Qed.

Lemma flat_map_length_le :
  forall {A B C} (f : A -> list B) (g : A -> list C) (l : list A),
    (forall x, In x l -> (List.length (f x) <= List.length (g x))%nat) ->
    (List.length (flat_map f l) <= List.length (flat_map g l))%nat.
Proof.
  intros A B C f g l; induction l as [|x r IH]; intros H; cbn; [lia|].
  rewrite !length_app.
  pose proof (H x (or_introl eq_refl)).
  assert (List.length (flat_map f r) <= List.length (flat_map g r))%nat
    by (apply IH; intros y Hy; apply H; right; exact Hy).
  lia.
Qed.

Lemma product_rows_count :
  forall (db : Storage.t) (num_ids : Z) (ids : list Z),
    List.length (flat_map (product_rows_of db num_ids) ids)
    = List.length (filter (product_loads db) ids).
Proof.
  intros db num_ids ids; induction ids as [|x r IH]; [reflexivity|].
  cbn [flat_map filter]. rewrite length_app, IH.
  unfold product_rows_of, product_loads.
  destruct (Storage.product db x); reflexivity.
Qed.

(** X2: the three counts a completed rebuild prints are the numbers
    of rows of the tables it has just committed; the count of products
    is the number of listed ids whose product loads, and there are never
    more summaries than changelog entries. *)
Theorem printed_counts :
  forall (db : Storage.t) (d : Db.t),
    schema_ready d = true ->
    completes db = true ->
    let out := index_main db (Some d) None in
    exists n_products n_changelog n_summaries : nat,
      fst out = Ok (Z.of_nat n_products, Z.of_nat n_changelog, Z.of_nat n_summaries)
      /\ option_map (@List.length _) (Db.t_products (snd out)) = Some n_products
      /\ option_map (@List.length _) (Db.t_changelog (snd out)) = Some n_changelog
      /\ option_map (@List.length _) (Db.t_summary (snd out)) = Some n_summaries
      /\ n_products = List.length (filter (product_loads db) (Storage.ids db))
      /\ (n_products <= List.length (Storage.ids db))%nat
      /\ (n_summaries <= n_changelog)%nat.
Proof.
  intros db d Hready Hdone out.
  pose proof (index_main_existing db d None) as H; cbv zeta in H.
  fold out in H.
  unfold commits in H. rewrite Hready, Hdone in H. cbn [andb covers] in H.
  destruct H as [Hs Hf]. specialize (Hf eq_refl).
  unfold completes in Hdone.
  destruct (snd (main_trace db)) eqn:Hsnd; [discriminate Hdone|].
  set (num_ids := Z.of_nat (List.length (Storage.ids db))) in *.
  destruct (ids_trace_rows db num_ids (Storage.ids db) Hsnd) as (H1 & H2 & H3).
  exists (List.length (flat_map (product_rows_of db num_ids) (Storage.ids db))),
         (List.length (flat_map (changelog_rows_of db) (Storage.ids db))),
         (List.length (flat_map (summary_rows_of db) (Storage.ids db))).
  rewrite Hs, Hf. unfold rebuilt, counts_of, main_trace. fold num_ids.
  rewrite H1, H2, H3. cbn [Db.count Db.t_products Db.t_changelog Db.t_summary option_map].
  repeat split.
  - apply product_rows_count.
  - rewrite product_rows_count. apply filter_length_le.
  - apply flat_map_length_le. intros x Hx.
    apply (id_trace_summary_le db num_ids).
    apply (ids_trace_each db num_ids (Storage.ids db) Hsnd), Hx.
Qed.

(** ** Malformed change records *)

Lemma index_change_no_payload :
  forall (prod : Product.t) (changerec : ChangeRecord.t),
    payload_present changerec = false ->
    index_change prod changerec = Raise AttributeError.
Proof.
  intros prod changerec; unfold payload_present, index_change.
  destruct (String.eqb _ "download").
  - destruct (ChangeRecord.download_record changerec); [discriminate | reflexivity].
  - destruct (String.eqb _ "property"); [|discriminate].
    destruct (ChangeRecord.property_record changerec); [discriminate | reflexivity].
Qed.

Lemma changelog_trace_stops :
  forall (prod : Product.t) (good : list ChangeRecord.t) (bad : ChangeRecord.t)
         (rest : list ChangeRecord.t),
    forallb payload_present good = true ->
    payload_present bad = false ->
    changelog_trace prod (good ++ bad :: rest)
    = (fst (changelog_trace prod good), Some AttributeError).
Proof.
  intros prod good bad rest Hgood Hbad; induction good as [|cr good IH].
  - cbn. rewrite (index_change_no_payload prod bad Hbad). reflexivity.
  - cbn [forallb] in Hgood. apply andb_prop in Hgood as [Hcr Hgood].
    cbn [app changelog_trace].
    destruct (index_change_payload prod cr Hcr) as [idx ->].
    rewrite (IH Hgood). reflexivity.
Qed.

Lemma changelog_trace_broken :
  forall (prod : Product.t) (changelog : list ChangeRecord.t) (changerec : ChangeRecord.t),
    In changerec changelog ->
    payload_present changerec = false ->
    snd (changelog_trace prod changelog) = Some AttributeError.
Proof.
  intros prod changelog changerec; induction changelog as [|cr rest IH];
    intros Hin Hbad; [contradiction|].
  cbn [changelog_trace].
  destruct (payload_present cr) eqn:Hcr.
  - destruct (index_change_payload prod cr Hcr) as [idx ->].
    rewrite then_trace_snd by reflexivity.
    destruct Hin as [->|Hin]; [congruence | apply IH; assumption].
  - rewrite (index_change_no_payload prod cr Hcr). reflexivity.
Qed.

Lemma changelog_trace_exn :
  forall (prod : Product.t) (changelog : list ChangeRecord.t) (e : exn),
    snd (changelog_trace prod changelog) = Some e -> e = AttributeError.
Proof.
  intros prod changelog e; induction changelog as [|cr rest IH]; [discriminate|].
  cbn [changelog_trace].
  destruct (payload_present cr) eqn:Hcr.
  - destruct (index_change_payload prod cr Hcr) as [idx ->].
    rewrite then_trace_snd by reflexivity. exact IH.
  - rewrite (index_change_no_payload prod cr Hcr). cbn. congruence.
Qed.

Lemma id_trace_exn :
  forall (db : Storage.t) (num_ids prod_id : Z) (e : exn),
    snd (id_trace db num_ids prod_id) = Some e -> e = AttributeError.
Proof.
  intros db num_ids prod_id e; unfold id_trace.
  destruct (Storage.product db prod_id) as [prod|]; [|discriminate].
  rewrite then_trace_snd by reflexivity.
  destruct (Storage.changelog db prod_id) as [changelog|]; [|discriminate].
  destruct (snd (changelog_trace prod changelog)) as [e'|] eqn:Hc.
  - unfold then_trace; rewrite Hc. rewrite Hc. intros [= <-].
    apply (changelog_trace_exn prod changelog), Hc.
  - rewrite then_trace_snd by exact Hc. discriminate.
Qed.

Lemma id_trace_broken :
  forall (db : Storage.t) (num_ids prod_id : Z),
    has_broken_record db prod_id ->
    snd (id_trace db num_ids prod_id) = Some AttributeError.
Proof.
  intros db num_ids prod_id (prod & changelog & cr & Hp & Hl & Hin & Hbad).
  unfold id_trace. rewrite Hp, Hl. rewrite then_trace_snd by reflexivity.
  pose proof (changelog_trace_broken prod changelog cr Hin Hbad) as Hc.
  unfold then_trace; rewrite Hc. exact Hc.
Qed.

Lemma ids_trace_broken :
  forall (db : Storage.t) (num_ids : Z) (ids : list Z) (prod_id : Z),
    In prod_id ids ->
    has_broken_record db prod_id ->
    snd (ids_trace db num_ids ids) = Some AttributeError.
Proof.
  intros db num_ids ids prod_id; induction ids as [|x rest IH]; intros Hin Hbad;
    [contradiction|].
  cbn [ids_trace].
  destruct (snd (id_trace db num_ids x)) as [e|] eqn:Hx.
  - unfold then_trace; rewrite Hx. rewrite Hx.
    f_equal. apply (id_trace_exn db num_ids x), Hx.
  - rewrite then_trace_snd by exact Hx.
    destruct Hin as [->|Hin]; [|apply IH; assumption].
    rewrite (id_trace_broken db num_ids prod_id Hbad) in Hx. discriminate Hx.
Qed.

Lemma index_main_stopped :
  forall (db : Storage.t) (d : Db.t) (e : exn),
    schema_ready d = true ->
    snd (main_trace db) = Some e ->
    index_main db (Some d) None = (Raise e, d).
Proof.
  intros db d e Hready Hsnd.
  unfold index_main, connect. rewrite !index_main_conn_existing.
  rewrite !(bind_ok _ _ _ _ _ (execute_begin d None)). cbn [option_map].
  destruct (exec_all_txn (txn_body db) (txn_body_data db) d d None) as (_ & _ & Hout).
  rewrite apply_txn_body, Hready in Hout. cbn [covers] in Hout.
  rewrite !(bind_ok _ _ _ _ _ Hout), Hsnd. reflexivity.
Qed.

(** X3: a single change record that lacks the payload its category
    reads, in the changelog of any listed id whose product loads, stops
    every rebuild: whatever the index file holds and wherever a fault is
    injected, the run raises and the file keeps its contents, so neither
    the rows of the ids before it nor those of the well-formed records
    are ever committed; without a fault, on a database that has its
    tables, the exception is [AttributeError]. *)
Theorem broken_record_aborts :
  forall (db : Storage.t) (prod_id : Z),
    In prod_id (Storage.ids db) ->
    has_broken_record db prod_id ->
    forall (d : Db.t) (budget : option nat),
      snd (index_main db (Some d) budget) = d
      /\ (exists e, fst (index_main db (Some d) budget) = Raise e)
      /\ (schema_ready d = true -> index_main db (Some d) None = (Raise AttributeError, d)).
Proof.
  intros db prod_id Hin Hbad d budget.
  pose proof (ids_trace_broken db (Z.of_nat (List.length (Storage.ids db)))
                (Storage.ids db) prod_id Hin Hbad) as Hsnd.
  fold (main_trace db) in Hsnd.
  pose proof (index_main_existing db d budget) as H; cbv zeta in H.
  unfold commits, completes in H. rewrite Hsnd, andb_false_r in H. cbn [andb] in H.
  destruct H as [Hs He].
  split; [exact Hs|]. split; [exact He|].
  intros Hready. apply index_main_stopped; assumption.
Qed.

(** X4: [index_changelog] stops at the first change record that lacks
    its payload: inside the transaction the rows of the records before
    it have been inserted into [changelog], the records after it are not
    looked at, and no summary row is written for the product, not even
    for the timestamps of the records already inserted. *)
Theorem index_changelog_stops_at_broken :
  forall (prod : Product.t) (good : list ChangeRecord.t) (bad : ChangeRecord.t)
         (rest : list ChangeRecord.t),
    forallb payload_present good = true ->
    payload_present bad = false ->
    forall (d : Db.t) (p : list ProductsRow.t) (c : list ChangelogRow.t)
           (s : list SummaryRow.t) (idx : list string),
      index_changelog prod (good ++ bad :: rest)
        (Conn.mk d (Some (Db.mk (Some p) (Some c) (Some s) idx)) None)
      = (Raise AttributeError,
         Conn.mk d
           (Some (Db.mk (Some p) (Some (c ++ changelog_rows_for prod good)) (Some s) idx))
           None)
      /\ List.length (changelog_rows_for prod good) = List.length good.
Proof.
  intros prod good bad rest Hgood Hbad d p c s idx.
  pose proof (changelog_trace_completes prod good Hgood) as Hnone.
  split; [|apply changelog_rows_for_length, Hnone].
  rewrite index_changelog_play, (changelog_trace_stops prod good bad rest Hgood Hbad).
  unfold then_trace, play; cbn [fst snd].
  pose proof (changelog_trace_inserts prod good) as Hins.
  destruct (exec_all_txn _ (is_insert_is_data _ Hins) d
              (Db.mk (Some p) (Some c) (Some s) idx) None) as (_ & _ & H).
  rewrite (apply_all_inserts _ p c s idx Hins) in H. cbn [covers spend option_map] in H.
  rewrite (bind_ok _ _ _ _ _ H).
  destruct (changelog_trace_rows prod good) as [Hp Hs].
  rewrite Hp, Hs, !app_nil_r, (changelog_trace_rows_for prod good Hnone).
  reflexivity.
Qed.

(** ** The schema *)

(** X5: [index_main] decides on the existence of the file alone
    whether to create the schema.  On an existing index database that
    lacks one of the three tables every run raises at a [DELETE] and
    leaves the file as it is, whatever the primary store holds: the
    missing table is never created. *)
Theorem missing_table_blocks_rebuild :
  forall (db : Storage.t) (d : Db.t) (budget : option nat),
    schema_ready d = false ->
    snd (index_main db (Some d) budget) = d
    /\ (exists e, fst (index_main db (Some d) budget) = Raise e)
    /\ index_main db (Some d) None = (Raise OperationalError, d).
Proof.
  intros db d budget Hno.
  pose proof (index_main_existing db d budget) as H; cbv zeta in H.
  unfold commits in H. rewrite Hno in H. cbn [andb] in H.
  destruct H as [Hs He]. split; [exact Hs|]. split; [exact He|].
  unfold index_main, connect. rewrite !index_main_conn_existing.
  rewrite !(bind_ok _ _ _ _ _ (execute_begin d None)). cbn [option_map].
  destruct (exec_all_txn (txn_body db) (txn_body_data db) d d None) as (Hd & _ & Hout).
  rewrite apply_txn_body, Hno in Hout.
  destruct (exec_all (txn_body db) _) as [[[]|e] c2] eqn:Hrun; cbn [fst snd] in *;
    [discriminate Hout|].
  injection Hout as ->.
  rewrite !(bind_raise _ _ _ _ _ Hrun). cbn [fst snd]. rewrite Hd. reflexivity.
Qed.

Lemma index_main_not_ready :
  forall (db : Storage.t) (d : Db.t) (budget : option nat),
    schema_ready d = false ->
    snd (index_main db (Some d) budget) = d
    /\ exists e, fst (index_main db (Some d) budget) = Raise e.
Proof.
  intros db d budget Hno.
  pose proof (index_main_existing db d budget) as H; cbv zeta in H.
  unfold commits in H. rewrite Hno in H. exact H.
Qed.

(** X6: [init_db] is not atomic.  When the run that creates the index
    file is cut by an error at one of the first three statements of
    [init_db], the file is left without one of the tables, and from then
    on every run, with any primary store, raises and changes nothing. *)
Theorem interrupted_creation_is_permanent :
  forall (db : Storage.t) (k : nat),
    (k <= 2)%nat ->
    let d := snd (index_main db None (Some k)) in
    schema_ready d = false
    /\ forall (db' : Storage.t) (budget : option nat),
         snd (index_main db' (Some d) budget) = d
         /\ exists e, fst (index_main db' (Some d) budget) = Raise e.
Proof.
  intros db k Hk d.
  assert (Hno : schema_ready d = false).
  { subst d. destruct k as [|[|[|k]]]; [reflexivity | reflexivity | reflexivity | lia]. }
  split; [exact Hno|].
  intros db' budget. apply index_main_not_ready, Hno.
Qed.

(** X7: on an existing index file a run never changes the schema:
    after it, whatever its outcome, the file has the same indexes and
    the same tables as before.  An index that [init_db] did not get to
    create is therefore never created. *)
Theorem schema_preserved :
  forall (db : Storage.t) (d : Db.t) (budget : option nat) (tb : table),
    Db.indexes (snd (index_main db (Some d) budget)) = Db.indexes d
    /\ Db.has_table tb (snd (index_main db (Some d) budget)) = Db.has_table tb d.
Proof.
  intros db d budget tb.
  pose proof (index_main_existing db d budget) as H; cbv zeta in H.
  destruct (commits db d budget) eqn:Hc.
  - destruct H as [-> _]. split; [reflexivity|].
    unfold commits in Hc. apply andb_prop in Hc as [Hc _].
    apply andb_prop in Hc as [Hc _]. unfold schema_ready in Hc.
    apply andb_prop in Hc as [Hc H3]. apply andb_prop in Hc as [H1 H2].
    destruct tb; cbn [Db.has_table rebuilt Db.t_products Db.t_changelog Db.t_summary];
      symmetry; assumption.
  - destruct H as [-> _]. split; reflexivity.
Qed.

(** X8: [init_db] assumes an empty database.  If one of the three
    tables exists already it raises, and if [products] exists it raises
    at its first statement and changes nothing; on the empty database
    of a new file it creates the three tables and the three indexes. *)
Theorem init_db_needs_empty :
  forall (d : Db.t) (budget : option nat),
    (Db.has_table tbl_products d || Db.has_table tbl_changelog d
     || Db.has_table tbl_changelog_summary d = true ->
     fst (init_db (Conn.mk d None budget)) = Raise OperationalError)
    /\ (Db.has_table tbl_products d = true ->
        Conn.durable (snd (init_db (Conn.mk d None budget))) = d)
    /\ init_db (Conn.mk Db.empty None None) = (Ok tt, Conn.mk fresh_schema None None).
Proof.
  intros [[p|] [c|] [s|] idx] budget; repeat split; intros H; try discriminate H;
    destruct budget as [[|[|[|n]]]|]; reflexivity.
Qed.

(** X9: the first run, which finds no index file, creates the three
    tables and the three indexes and, when no change record stops it,
    fills the tables with the same rows a rebuild of an existing index
    database gives. *)
Theorem first_run_creates_and_fills :
  forall (db : Storage.t),
    completes db = true ->
    let num_ids := Z.of_nat (List.length (Storage.ids db)) in
    snd (index_main db None None)
    = Db.mk (Some (flat_map (product_rows_of db num_ids) (Storage.ids db)))
            (Some (flat_map (changelog_rows_of db) (Storage.ids db)))
            (Some (flat_map (summary_rows_of db) (Storage.ids db)))
            ["idx_products_sale_rank"; "idx_changelog_timestamp"; "idx_summary_timestamp"]
    /\ forall d : Db.t,
         schema_ready d = true ->
         Db.t_products (snd (index_main db (Some d) None))
         = Db.t_products (snd (index_main db None None))
         /\ Db.t_changelog (snd (index_main db (Some d) None))
            = Db.t_changelog (snd (index_main db None None))
         /\ Db.t_summary (snd (index_main db (Some d) None))
            = Db.t_summary (snd (index_main db None None)).
Proof.
  intros db Hdone num_ids.
  assert (Hrun : forall d, schema_ready d = true ->
                           snd (index_main db (Some d) None) = rebuilt db d).
  { intros d Hready.
    pose proof (index_main_existing db d None) as H; cbv zeta in H.
    unfold commits in H. rewrite Hready, Hdone in H. cbn [andb covers] in H.
    apply H. }
  rewrite index_main_fresh, (Hrun fresh_schema eq_refl).
  split.
  - unfold completes in Hdone.
    destruct (snd (main_trace db)) eqn:Hsnd; [discriminate Hdone|].
    destruct (ids_trace_rows db num_ids (Storage.ids db) Hsnd) as (H1 & H2 & H3).
    unfold rebuilt, main_trace. fold num_ids. rewrite H1, H2, H3. reflexivity.
  - intros d Hready. rewrite (Hrun d Hready). repeat split.
Qed.

(** ** The rows of the projections *)

(** X10: the category alone selects the payload that is read.  The
    row of a [property] record has the name of the changed property and
    null [dl_type] and [bonus_type], also when the record carries a
    download payload; the row of a [download] record has a null
    [property_name], also when the record carries a property payload.
    Every row copies the id and title of the product, and the timestamp,
    action and category of the record. *)
Theorem category_selects_payload :
  forall (prod : Product.t) (changerec : ChangeRecord.t) (idx_change : IndexChange.t),
    index_change prod changerec = Ok idx_change ->
    let row := changelog_row idx_change in
    (ChangeRecord.category changerec = "property" ->
       ChangelogRow.property_name row
       = option_map PropertyRecord.property_name (ChangeRecord.property_record changerec)
       /\ ChangelogRow.property_name row <> None
       /\ ChangelogRow.dl_type row = None
       /\ ChangelogRow.bonus_type row = None)
    /\ (ChangeRecord.category changerec = "download" ->
       ChangelogRow.property_name row = None
       /\ ChangelogRow.dl_type row
          = option_map DownloadRecord.dl_type (ChangeRecord.download_record changerec)
       /\ ChangelogRow.dl_type row <> None)
    /\ ChangelogRow.product_id row = Product.id prod
    /\ ChangelogRow.product_title row = Product.title prod
    /\ ChangelogRow.timestamp row = posix_timestamp (ChangeRecord.timestamp changerec)
    /\ ChangelogRow.action row = ChangeRecord.action changerec
    /\ ChangelogRow.category row = ChangeRecord.category changerec.
Proof.
  intros prod changerec idx_change; unfold index_change.
  destruct (String.eqb (ChangeRecord.category changerec) "download") eqn:Hd.
  - destruct (ChangeRecord.download_record changerec) as [dr|]; cbn [deref];
      [|discriminate].
    destruct (DownloadRecord.dl_new_bonus dr), (DownloadRecord.dl_old_bonus dr);
      intros [= <-]; cbn; repeat split; try discriminate;
      try (match goal with
           | Hc : ChangeRecord.category _ = _ |- _ =>
               rewrite Hc in *; cbn in *; discriminate
           end).
  - destruct (String.eqb (ChangeRecord.category changerec) "property") eqn:Hp.
    + destruct (ChangeRecord.property_record changerec) as [pr|]; cbn [deref];
        [|discriminate].
      intros [= <-]; cbn; repeat split; try discriminate;
        try (match goal with
           | Hc : ChangeRecord.category _ = _ |- _ =>
               rewrite Hc in *; cbn in *; discriminate
           end).
    + intros [= <-]; cbn; repeat split; try discriminate;
        try (match goal with
           | Hc : ChangeRecord.category _ = _ |- _ =>
               rewrite Hc in *; cbn in *; discriminate
           end).
Qed.

(** X11: the sale rank reverses the bestseller order and keeps
    distinct ranks apart; a rank between 1 and the number of ids gives a
    sale rank between 1 and that number, above the 0 of a product
    without rank, while a rank beyond the number of ids gives a sale
    rank of 0 or less, which the code does not clamp. *)
Theorem sale_rank_order :
  forall (p q : Product.t) (num_ids rp rq : Z),
    Product.rank_bestselling p = Some rp ->
    Product.rank_bestselling q = Some rq ->
    (rp < rq <->
     ProductsRow.sale_rank (product_row q num_ids)
     < ProductsRow.sale_rank (product_row p num_ids))
    /\ (ProductsRow.sale_rank (product_row p num_ids)
        = ProductsRow.sale_rank (product_row q num_ids) -> rp = rq)
    /\ (1 <= rp <= num_ids ->
        1 <= ProductsRow.sale_rank (product_row p num_ids) <= num_ids)
    /\ (num_ids < rp -> ProductsRow.sale_rank (product_row p num_ids) <= 0).
Proof.
  intros p q num_ids rp rq Hp Hq.
  unfold product_row, sale_rank_of; cbn [ProductsRow.sale_rank].
  rewrite Hp, Hq. repeat split; intros; lia.
Qed.

(** ** The canonical text *)

Lemma strongly_sorted_unique_on :
  forall {A} (leb : A -> A -> bool) (l1 l2 : list A),
    (forall a b, In a l1 -> In b l1 -> leb a b = true -> leb b a = true -> a = b) ->
    StronglySorted (fun a b => leb a b = true) l1 ->
    StronglySorted (fun a b => leb a b = true) l2 ->
    Permutation l1 l2 ->
    l1 = l2.
Proof.
  forget_env.
  intros A leb l1; induction l1 as [|x r1 IH]; intros l2 Hanti H1 H2 Hp.
  - apply Permutation_nil in Hp. symmetry; exact Hp.
  - destruct l2 as [|y r2]; [apply Permutation_sym, Permutation_nil in Hp; discriminate|].
    inversion H1 as [|? ? Hr1 Hx]; subst.
    inversion H2 as [|? ? Hr2 Hy]; subst.
    assert (Hin1 : In x (y :: r2))
      by (eapply Permutation_in; [exact Hp | left; reflexivity]).
    assert (Hin2 : In y (x :: r1))
      by (eapply Permutation_in; [apply Permutation_sym, Hp | left; reflexivity]).
    assert (Hxy : x = y).
    { destruct Hin1 as [E|Hin1]; [symmetry; exact E|].
      destruct (Hin2) as [E|Hin2']; [exact E|].
      rewrite Forall_forall in Hx, Hy.
      apply Hanti; [left; reflexivity | exact Hin2 | apply Hx, Hin2' | apply Hy, Hin1]. }
    subst y. f_equal.
    apply IH; [|assumption|assumption|eapply Permutation_cons_inv; exact Hp].
    intros a b Ha Hb. apply Hanti; right; assumption.
Qed.

Lemma distinct_keys_injective :
  forall (l : list (string * Json.value)) (a b : string * Json.value),
    NoDup (map fst l) -> In a l -> In b l -> fst a = fst b -> a = b.
Proof.
  forget_env.
  induction l as [|z r IH]; intros a b Hnd Ha Hb Hk; [contradiction|].
  cbn in Hnd. inversion Hnd as [|? ? Hz Hr]; subst.
  destruct Ha as [Ha|Ha], Hb as [Hb|Hb].
  - rewrite <- Ha, <- Hb. reflexivity.
  - exfalso; apply Hz. subst z. rewrite Hk. apply in_map, Hb.
  - exfalso; apply Hz. subst z. rewrite <- Hk. apply in_map, Ha.
  - apply IH; assumption.
Qed.

Lemma sorted_items_unique :
  forall l1 l2 : list (string * Json.value),
    NoDup (map fst l1) ->
    Permutation l1 l2 ->
    sorted Json.key_leb l1 = sorted Json.key_leb l2.
Proof.
  forget_env.
  intros l1 l2 Hnd Hp.
  apply (strongly_sorted_unique_on Json.key_leb).
  - intros a b Ha Hb Hab Hba.
    apply (distinct_keys_injective l1); [exact Hnd | | |].
    + eapply Permutation_in; [apply Permutation_sym, sorted_perm | exact Ha].
    + eapply Permutation_in; [apply Permutation_sym, sorted_perm | exact Hb].
    + apply String.leb_antisym; assumption.
  - apply sorted_sorted; [apply key_leb_total | apply key_leb_trans].
  - apply sorted_sorted; [apply key_leb_total | apply key_leb_trans].
  - eapply perm_trans; [apply Permutation_sym, sorted_perm|].
    eapply perm_trans; [exact Hp | apply sorted_perm].
Qed.

Lemma sort_keys_same_eq :
  forall v : Json.value,
    keys_distinct v ->
    forall v' : Json.value, Json.same v v' -> Json.sort_keys v = Json.sort_keys v'.
Proof.
  forget_env.
  induction v as [| | | |l IH|items IH] using json_induction;
    intros Hk v' Hs; inversion Hs; subst; try reflexivity.
  - (* lists *)
    cbn [Json.sort_keys]. f_equal.
    cbn [keys_distinct] in Hk.
    match goal with H : Forall2 Json.same l _ |- _ => rename H into HF end.
    clear Hs. induction HF as [|x y r r' Hxy HF IHF]; [reflexivity|].
    inversion IH as [|? ? Hx Hr]; subst. destruct Hk as [Hkx Hkr].
    cbn [map]. f_equal; [apply Hx; assumption | apply IHF; assumption].
  - (* dictionaries *)
    cbn [Json.sort_keys]. f_equal.
    cbn [keys_distinct] in Hk. destruct Hk as [Hnd Hvals].
    match goal with
    | HF : Forall2 _ items ?m, HP : Permutation ?m _ |- _ =>
        rename HF into HF'; rename HP into HP'; rename m into mid0
    end.
    assert (Hmap : map (fun kv => (fst kv, Json.sort_keys (snd kv))) items
                   = map (fun kv => (fst kv, Json.sort_keys (snd kv))) mid0).
    { clear Hs HP' Hnd. induction HF' as [|a b r r' [Hab1 Hab2] HF' IHF]; [reflexivity|].
      inversion IH as [|? ? Ha Hr]; subst. destruct Hvals as [Hka Hkr].
      cbn [map]. f_equal; [|apply IHF; assumption].
      rewrite Hab1. f_equal. apply Ha; assumption. }
    rewrite Hmap. apply sorted_items_unique.
    + rewrite <- Hmap, map_map. cbn [fst]. exact Hnd.
    + apply Permutation_map. exact HP'.
Qed.

(** X12: with [sort_keys=True] the text of a document does not depend
    on the order in which its dictionaries list their items: two
    documents with the same structure, whose dictionaries have distinct
    keys, are serialized to the same text.  The [serialized_record] of a
    change record is therefore the same whatever the order in which the
    encoder lists the attributes. *)
Theorem dumps_canonical :
  forall v v' : Json.value,
    keys_distinct v ->
    Json.same v v' ->
    Json.dumps true v = Json.dumps true v'.
Proof.
  intros v v' Hk Hs. unfold Json.dumps.
  rewrite (sort_keys_same_eq v Hk v' Hs). reflexivity.
Qed.

(** ** After the commit *)

Lemma index_main_conn_committed :
  forall (db : Storage.t) (d : Db.t) (k : nat),
    schema_ready d = true ->
    completes db = true ->
    index_main_conn db false
      (Conn.mk d None (Some (S (List.length (txn_body db) + S k))))
    = report_and_close (Conn.mk (rebuilt db d) None (Some k)).
Proof.
  intros db d k Hready Hdone.
  rewrite index_main_conn_existing.
  rewrite (bind_ok _ _ _ _ _ (execute_begin d (Some (S (List.length (txn_body db) + S k))))).
  cbn [option_map Nat.pred].
  destruct (exec_all_txn (txn_body db) (txn_body_data db) d d
              (Some (List.length (txn_body db) + S k)%nat)) as (_ & _ & Hout).
  rewrite apply_txn_body, Hready in Hout. cbn [covers spend option_map] in Hout.
  replace (List.length (txn_body db) <=? List.length (txn_body db) + S k)%nat
    with true in Hout by (symmetry; apply Nat.leb_le; lia).
  replace (List.length (txn_body db) + S k - List.length (txn_body db))%nat
    with (S k) in Hout by lia.
  rewrite (bind_ok _ _ _ _ _ Hout).
  unfold completes in Hdone.
  destruct (snd (main_trace db)); [discriminate Hdone|].
  rewrite bind_ret.
  rewrite (bind_ok _ _ _ _ _ (execute_end d (rebuilt db d) (Some (S k)))).
  reflexivity.
Qed.

(** X13: the rebuild is committed by [END TRANSACTION], before the
    rows are counted.  When an error hits one of the three counts that
    follow, the run raises although the index file already holds the
    complete rebuild; once the counts are through, the run returns
    them. *)
Theorem failure_after_commit :
  forall (db : Storage.t) (d : Db.t) (k : nat),
    schema_ready d = true ->
    completes db = true ->
    let out := index_main db (Some d) (Some (S (List.length (txn_body db) + S k))) in
    snd out = rebuilt db d
    /\ ((k <= 2)%nat -> fst out = Raise OperationalError)
    /\ ((3 <= k)%nat -> fst out = Ok (counts_of (rebuilt db d))).
Proof.
  intros db d k Hready Hdone out. subst out.
  unfold index_main, connect.
  rewrite !(index_main_conn_committed db d k Hready Hdone).
  split; [|split].
  - apply (quiet_report_and_close (Conn.mk (rebuilt db d) None (Some k))). reflexivity.
  - intros Hk. destruct k as [|[|[|k]]]; [reflexivity | reflexivity | reflexivity | lia].
  - intros Hk. destruct k as [|[|[|k]]]; [lia | lia | lia | reflexivity].
Qed.

(** ** Edge cases of the summaries and of the text *)









End Indexer.

(** * The serialised record read back *)

(** ** Strings *)

Lemma read_string_escape_char :
  forall (a : ascii) (tail : string),
    Json.read_string (Json.escape_char a ++ tail)
    = Json.prepend (String a "") (Json.read_string tail).
Proof. intros [[] [] [] [] [] [] [] []] tail; reflexivity. Qed.

Lemma read_string_escape :
  forall s rest : string,
    Json.read_string (Json.escape s ++ String Json.dquote rest) = Some (s, rest).
Proof.
  induction s as [|a r IH]; intro rest.
  - reflexivity.
  - cbn [Json.escape]. rewrite append_assoc, read_string_escape_char, IH.
    reflexivity.
Qed.

(** ** Numbers *)

Lemma number_start_plain :
  forall a : ascii,
    Json.is_digit a || Ascii.eqb a "-" = true ->
    Json.is_ws a = false /\ Ascii.eqb a "]" = false /\ Ascii.eqb a "}" = false.
Proof.
  intros [[] [] [] [] [] [] [] []] H;
    solve [repeat split; reflexivity | vm_compute in H; discriminate H].
Qed.

Lemma digit_not_minus :
  forall a : ascii, Json.is_digit a = true -> Ascii.eqb a "-" = false.
Proof.
  intros [[] [] [] [] [] [] [] []] H;
    solve [reflexivity | vm_compute in H; discriminate H].
Qed.

Lemma delimiter_ends_number :
  forall rest : string,
    Json.delimited rest = true ->
    Json.span_digits rest = (EmptyString, rest) /\ Json.starts_fraction rest = false.
Proof.
  intros [|a r] H; [split; reflexivity|].
  cbn [Json.delimited] in H. cbn [Json.span_digits Json.starts_fraction].
  revert H. destruct a as [[] [] [] [] [] [] [] []]; intro H;
    solve [split; reflexivity | vm_compute in H; discriminate H].
Qed.

Lemma string_of_uint_head :
  forall d : Decimal.uint,
    d <> Decimal.Nil ->
    exists a r, NilEmpty.string_of_uint d = String a r /\ Json.is_digit a = true.
Proof.
  intros [|d|d|d|d|d|d|d|d|d|d] H; [contradiction|..];
    eexists; eexists; split; reflexivity.
Qed.

Lemma span_digits_string_of_uint :
  forall (d : Decimal.uint) (rest : string),
    Json.delimited rest = true ->
    Json.span_digits (NilEmpty.string_of_uint d ++ rest)
    = (NilEmpty.string_of_uint d, rest).
Proof.
  intros d rest Hrest; induction d as [|d IH|d IH|d IH|d IH|d IH|d IH|d IH|d IH|d IH|d IH];
    [exact (proj1 (delimiter_ends_number rest Hrest))|..];
    cbn [NilEmpty.string_of_uint append Json.span_digits];
    rewrite IH; reflexivity.
Qed.

Lemma unorm_to_uint :
  forall p : positive, Decimal.unorm (Pos.to_uint p) = Pos.to_uint p.
Proof.
  intro p. rewrite <- (DecimalPos.Unsigned.to_of (Pos.to_uint p)),
    DecimalPos.Unsigned.of_to. reflexivity.
Qed.

Lemma read_digits_string_of_uint :
  forall (negative : bool) (d : Decimal.uint) (rest : string),
    d <> Decimal.Nil -> Decimal.unorm d = d -> Json.delimited rest = true ->
    Json.read_digits negative (NilEmpty.string_of_uint d ++ rest)
    = Some (if negative then (- Z.of_uint d)%Z else Z.of_uint d, rest).
Proof.
  intros negative d rest Hd Hnorm Hrest. unfold Json.read_digits.
  rewrite span_digits_string_of_uint by exact Hrest. cbn [fst snd].
  rewrite NilEmpty.usu, Hnorm.
  rewrite (Decimal.internal_uint_dec_lb d d eq_refl).
  rewrite (proj2 (delimiter_ends_number rest Hrest)).
  destruct (Decimal.uint_beq d Decimal.Nil) eqn:E.
  - apply Decimal.internal_uint_dec_bl in E. contradiction.
  - reflexivity.
Qed.

Lemma read_number_digits :
  forall (s : string) (a : ascii) (r : string),
    s = String a r -> Json.is_digit a = true ->
    Json.read_number s = Json.read_digits false s.
Proof.
  intros s a r -> Ha. unfold Json.read_number.
  rewrite (digit_not_minus a Ha). reflexivity.
Qed.

Lemma read_number_encode_int :
  forall (z : Z) (rest : string),
    Json.delimited rest = true ->
    Json.read_number (Json.encode_int z ++ rest) = Some (z, rest).
Proof.
  intros z rest Hrest. unfold Json.encode_int.
  destruct z as [|p|p]; cbn [Z.to_int NilEmpty.string_of_int].
  - change (Json.read_digits false
              (NilEmpty.string_of_uint (Decimal.D0 Decimal.Nil) ++ rest)
            = Some (0%Z, rest)).
    rewrite read_digits_string_of_uint; [reflexivity|discriminate|reflexivity|exact Hrest].
  - destruct (string_of_uint_head (Pos.to_uint p)
                (DecimalPos.Unsigned.to_uint_nonnil p)) as (a & r & Heq & Ha).
    rewrite (read_number_digits _ a (r ++ rest)) by (first [exact Ha | rewrite Heq; reflexivity]).
    rewrite read_digits_string_of_uint;
      [|apply DecimalPos.Unsigned.to_uint_nonnil|apply unorm_to_uint|exact Hrest].
    unfold Z.of_uint. rewrite DecimalPos.Unsigned.of_to. reflexivity.
  - change (Json.read_digits true (NilEmpty.string_of_uint (Pos.to_uint p) ++ rest)
            = Some (Z.neg p, rest)).
    rewrite read_digits_string_of_uint;
      [|apply DecimalPos.Unsigned.to_uint_nonnil|apply unorm_to_uint|exact Hrest].
    unfold Z.of_uint. rewrite DecimalPos.Unsigned.of_to. reflexivity.
Qed.

Lemma encode_int_head :
  forall (z : Z) (rest : string),
    exists a r, (Json.encode_int z ++ rest)%string = String a r
                /\ Json.is_digit a || Ascii.eqb a "-" = true.
Proof.
  intros z rest. unfold Json.encode_int.
  destruct z as [|p|p]; cbn [Z.to_int NilEmpty.string_of_int].
  - eexists; eexists; split; reflexivity.
  - destruct (string_of_uint_head (Pos.to_uint p)
                (DecimalPos.Unsigned.to_uint_nonnil p)) as (a & r & Heq & Ha).
    exists a, (r ++ rest)%string. rewrite Heq, Ha. split; reflexivity.
  - eexists; eexists; split; reflexivity.
Qed.

(** ** Values *)

Lemma parse_value_space :
  forall (fuel : nat) (s : string),
    Json.parse_value fuel (String " " s) = Json.parse_value fuel s.
Proof. intros [|fuel] s; reflexivity. Qed.

Lemma parse_elements_space :
  forall (fuel : nat) (s : string),
    Json.parse_elements fuel (String " " s) = Json.parse_elements fuel s.
Proof.
  intros [|fuel] s; [reflexivity|].
  cbn [Json.parse_elements]. rewrite parse_value_space. reflexivity.
Qed.

Lemma parse_members_space :
  forall (fuel : nat) (s : string),
    Json.parse_members fuel (String " " s) = Json.parse_members fuel s.
Proof. intros [|fuel] s; reflexivity. Qed.

Lemma encode_head :
  forall (v : Json.value) (rest : string),
    exists a r, (Json.encode v ++ rest)%string = String a r
                /\ Json.is_ws a = false
                /\ Ascii.eqb a "]" = false /\ Ascii.eqb a "}" = false.
Proof.
  intros [| [|] |z|s|l|items] rest;
    try (eexists; eexists; split; [reflexivity|repeat split; reflexivity]).
  destruct (encode_int_head z rest) as (a & r & Heq & Ha).
  exists a, r. split; [exact Heq | apply number_start_plain, Ha].
Qed.

Lemma join_head :
  forall (x : string) (l : list string) (tail : string),
    exists rest, (join ", " (x :: l) ++ tail)%string = (x ++ rest)%string.
Proof.
  intros x [|y l] tail; unfold join; cbn [String.concat].
  - exists tail. reflexivity.
  - eexists. rewrite append_assoc. reflexivity.
Qed.

Lemma join_cons :
  forall (x y : string) (l : list string) (tail : string),
    (join ", " (x :: y :: l) ++ tail)%string
    = (x ++ String "," (String " " (join ", " (y :: l) ++ tail)))%string.
Proof.
  intros x y l tail. unfold join. cbn [String.concat].
  rewrite !append_assoc. reflexivity.
Qed.

Lemma parse_elements_encode :
  forall l : list Json.value,
    Forall Json.round_trip l ->
    forall (e : Json.value) (fuel : nat) (rest : string),
      Json.round_trip e ->
      (fold_right (fun x n => S (Nat.max (Json.fuel_of x) n)) O (e :: l) <= fuel)%nat ->
      Json.parse_elements fuel
        (join ", " (map Json.encode (e :: l)) ++ String "]" rest)
      = Some (e :: l, rest).
Proof.
  induction 1 as [|e' l He' Hl IH]; intros e fuel rest He Hfuel;
    cbn [fold_right] in Hfuel; (destruct fuel as [|fuel]; [lia|]).
  - cbn [map join String.concat Json.parse_elements].
    rewrite He by (reflexivity || lia). reflexivity.
  - cbn [map]. rewrite join_cons. cbn [Json.parse_elements].
    rewrite He by (reflexivity || lia).
    change (option_map (fun lr => (e :: fst lr, snd lr))
              (Json.parse_elements fuel
                 (String " "
                    (join ", " (Json.encode e' :: map Json.encode l)
                     ++ String "]" rest)))
            = Some (e :: e' :: l, rest)).
    rewrite parse_elements_space.
    change (Json.encode e' :: map Json.encode l) with (map Json.encode (e' :: l)).
    rewrite IH by (exact He' || (cbn [fold_right]; lia)). reflexivity.
Qed.

Lemma member_text :
  forall (key : string) (v : Json.value) (tail : string),
    ((Json.encode_basestring key ++ ": " ++ Json.encode v) ++ tail)%string
    = String Json.dquote
        (Json.escape key
         ++ String Json.dquote (String ":" (String " " (Json.encode v ++ tail))))%string.
Proof.
  intros key v tail. unfold Json.encode_basestring.
  cbn [append]. rewrite !append_assoc. reflexivity.
Qed.

Lemma parse_members_encode :
  forall items : list (string * Json.value),
    Forall (fun kv => Json.round_trip (snd kv)) items ->
    forall (kv : string * Json.value) (fuel : nat) (rest : string),
      Json.round_trip (snd kv) ->
      (fold_right (fun kv n => S (Nat.max (Json.fuel_of (snd kv)) n)) O (kv :: items)
       <= fuel)%nat ->
      Json.parse_members fuel
        (join ", "
           (map (fun kv =>
                   (Json.encode_basestring (fst kv) ++ ": " ++ Json.encode (snd kv))%string)
                (kv :: items))
         ++ String "}" rest)
      = Some (kv :: items, rest).
Proof.
  induction 1 as [|kv' items Hkv' Hitems IH]; intros [key v] fuel rest Hv Hfuel;
    cbn [fold_right snd] in Hfuel; cbn [snd] in Hv;
    (destruct fuel as [|fuel]; [lia|]).
  - cbn [map join String.concat fst snd]. rewrite member_text.
    cbn [Json.parse_members Json.skip_ws].
    change (Json.is_ws Json.dquote) with false.
    change (Ascii.eqb Json.dquote Json.dquote) with true. cbv iota.
    rewrite read_string_escape. cbn [Json.skip_ws].
    change (Json.is_ws ":") with false. change (Ascii.eqb ":" ":") with true.
    cbv iota. rewrite parse_value_space.
    rewrite Hv by (reflexivity || lia). reflexivity.
  - cbn [map fst snd]. rewrite join_cons, member_text.
    cbn [Json.parse_members Json.skip_ws].
    change (Json.is_ws Json.dquote) with false.
    change (Ascii.eqb Json.dquote Json.dquote) with true. cbv iota.
    rewrite read_string_escape. cbn [Json.skip_ws].
    change (Json.is_ws ":") with false. change (Ascii.eqb ":" ":") with true.
    cbv iota. rewrite parse_value_space.
    rewrite Hv by (reflexivity || lia).
    cbn [Json.skip_ws]. change (Json.is_ws ",") with false.
    change (Ascii.eqb "," ",") with true. cbv iota.
    rewrite parse_members_space.
    change (join ", "
              ((Json.encode_basestring (fst kv') ++ ": " ++ Json.encode (snd kv'))%string
               :: map (fun kv =>
                         (Json.encode_basestring (fst kv) ++ ": "
                          ++ Json.encode (snd kv))%string) items))
      with (join ", "
              (map (fun kv =>
                      (Json.encode_basestring (fst kv) ++ ": "
                       ++ Json.encode (snd kv))%string) (kv' :: items))).
    rewrite IH by (exact Hkv' || (cbn [fold_right]; lia)). reflexivity.
Qed.

Lemma parse_value_number :
  forall (fuel : nat) (s : string) (a : ascii) (r : string),
    s = String a r -> Json.is_digit a || Ascii.eqb a "-" = true ->
    Json.parse_value (S fuel) s
    = option_map (fun zr => (Json.JInt (fst zr), snd zr)) (Json.read_number s).
Proof.
  intros fuel s a r -> Ha. cbn [Json.parse_value Json.skip_ws].
  rewrite (proj1 (number_start_plain a Ha)), Ha. reflexivity.
Qed.

Lemma parse_value_list :
  forall (fuel : nat) (s : string) (b : ascii) (r : string),
    s = String b r -> Json.is_ws b = false -> Ascii.eqb b "]" = false ->
    Json.parse_value (S fuel) (String "[" s)
    = option_map (fun lr => (Json.JList (fst lr), snd lr)) (Json.parse_elements fuel s).
Proof.
  intros fuel s b r -> Hws Hb. cbn [Json.parse_value Json.skip_ws].
  change (Json.is_ws "[") with false. cbv iota.
  change (Json.is_digit "[" || Ascii.eqb "[" "-") with false.
  change (Ascii.eqb "[" Json.dquote) with false.
  change (Ascii.eqb "[" "[") with true. cbv iota.
  cbn [Json.skip_ws]. rewrite Hws, Hb. reflexivity.
Qed.

Lemma parse_value_dict :
  forall (fuel : nat) (s : string),
    Json.parse_value (S fuel) (String "{" (String Json.dquote s))
    = option_map (fun lr => (Json.JDict (fst lr), snd lr))
        (Json.parse_members fuel (String Json.dquote s)).
Proof. reflexivity. Qed.

(** The reader gives every document back from the text [encode] writes
    for it. *)
Lemma parse_encode : forall v : Json.value, Json.round_trip v.
Proof.
  induction v as [|b|z|s|l IH|items IH] using json_induction;
    intros fuel rest Hfuel Hrest;
    (destruct fuel as [|fuel]; [cbn in Hfuel; lia|]).
  - reflexivity.
  - destruct b; reflexivity.
  - cbn [Json.encode].
    destruct (encode_int_head z rest) as (a & r & Heq & Ha).
    rewrite (parse_value_number fuel _ a r Heq Ha).
    rewrite read_number_encode_int by exact Hrest. reflexivity.
  - cbn [Json.encode]. unfold Json.encode_basestring.
    cbn [append]. rewrite append_assoc. cbn [append].
    cbn [Json.parse_value Json.skip_ws].
    change (Json.is_ws Json.dquote) with false. cbv iota.
    change (Json.is_digit Json.dquote || Ascii.eqb Json.dquote "-") with false.
    change (Ascii.eqb Json.dquote Json.dquote) with true. cbv iota.
    rewrite read_string_escape. reflexivity.
  - destruct IH as [|e l He Hl]; [reflexivity|].
    cbn [Json.encode append]. rewrite append_assoc. cbn [append].
    destruct (join_head (Json.encode e) (map Json.encode l) (String "]" rest))
      as (tail & Htail).
    destruct (encode_head e tail) as (b & r & Heq & Hws & Hb & _).
    cbn [map].
    rewrite (parse_value_list fuel _ b r (eq_trans Htail Heq) Hws Hb).
    change (Json.encode e :: map Json.encode l) with (map Json.encode (e :: l)).
    rewrite (parse_elements_encode l Hl e fuel rest He)
      by (cbn [Json.fuel_of] in Hfuel; lia).
    reflexivity.
  - destruct IH as [|kv items Hkv Hitems]; [reflexivity|].
    change ((Json.encode (Json.JDict (kv :: items)) ++ rest)%string)
      with (String "{"
              ((join ", "
                  (map (fun kv0 => (Json.encode_basestring (fst kv0) ++ ": "
                                    ++ Json.encode (snd kv0))%string) (kv :: items))
                ++ "}") ++ rest)%string).
    rewrite append_assoc. change ("}" ++ rest)%string with (String "}" rest).
    pose proof (parse_members_encode items Hitems kv fuel rest Hkv) as Hm.
    cbn [Json.fuel_of] in Hfuel. specialize (Hm ltac:(lia)).
    destruct (join_head (Json.encode_basestring (fst kv) ++ ": "
                           ++ Json.encode (snd kv))
                (map (fun kv0 => (Json.encode_basestring (fst kv0) ++ ": "
                                  ++ Json.encode (snd kv0))%string) items)
                (String "}" rest)) as (tail & Htail).
    rewrite member_text in Htail. cbn [map] in Hm |- *.
    rewrite Htail in Hm |- *.
    rewrite parse_value_dict, Hm. reflexivity.
Qed.

(** [json.loads(json.dumps(v, sort_keys=sk, ensure_ascii=False))]: the
    text [json.dumps] writes is a JSON text, and reading it gives the
    document that was written. *)
Lemma loads_dumps :
  forall (sk : bool) (v : Json.value) (fuel : nat),
    (Json.fuel_of (if sk then Json.sort_keys v else v) <= fuel)%nat ->
    Json.loads fuel (Json.dumps sk v) = Some (if sk then Json.sort_keys v else v).
Proof.
  intros sk v fuel Hfuel. unfold Json.loads, Json.dumps.
  rewrite <- (append_empty_r (Json.encode _)).
  rewrite (parse_encode _ fuel "" Hfuel eq_refl). reflexivity.
Qed.

(** ** The record *)

Lemma get_in :
  forall (key : string) (items : list (string * Json.value)),
    Json.get key (Json.JDict items) <> None -> In key (map fst items).
Proof.
  intros key items. unfold Json.get.
  destruct (find (fun kv => String.eqb (fst kv) key) (rev items)) as [kv|] eqn:E;
    [intros _ | intro H; exfalso; apply H; reflexivity].
  apply find_some in E. destruct E as [Hin Heq].
  apply String.eqb_eq in Heq. subst key.
  apply in_map, in_rev, Hin.
Qed.

Lemma get_sort_keys_in :
  forall (key : string) (items : list (string * Json.value)),
    Json.get key (Json.sort_keys (Json.JDict items)) <> None ->
    In key (map fst items).
Proof.
  intros key items H. cbn [Json.sort_keys] in H. apply get_in in H.
  apply (Permutation_in key
           (Permutation_map fst
              (Permutation_sym
                 (sorted_perm Json.key_leb
                    (map (fun kv => (fst kv, Json.sort_keys (snd kv))) items))))) in H.
  rewrite map_map in H. exact H.
Qed.

Lemma record_keys :
  forall (json_timestamp : datetime -> Json.value) (omit_none : bool)
         (changerec : ChangeRecord.t) (key : string),
    Json.get key (Json.sort_keys (Storage.json_encoder json_timestamp omit_none changerec))
    <> None ->
    In key Storage.attribute_names.
Proof.
  intros json_timestamp omit_none [id ts act cat dl pr] key H.
  apply get_sort_keys_in in H. revert H.
  destruct omit_none, dl as [d|], pr as [p|]; cbn; tauto.
Qed.

(** C9: the [serialized_record] of the row written for a change record
    is [json.dumps] of the record with [sort_keys=True] and
    [ensure_ascii=False], for every encoder of the shape the
    specification describes.  The text is a JSON text: a reader of the
    JSON grammar accepts it, and reads it back as the document [doc] of
    the record.  In [doc] every dictionary lists its keys in ascending
    order; its keys are attributes of the record; the product id, the
    timestamp, the action and the category are found under their names,
    and the payload of the category under its own, nested: the download
    type and the type of each bonus of a download record, the name of
    a property record.  The bytes outside ASCII of the text are those of
    the strings of [doc], in order: none is escaped, and a character
    outside ASCII is written as it is. *)
Theorem serialized_record_canonical :
  forall (posix_timestamp : datetime -> Q)
         (json_timestamp : datetime -> Json.value) (omit_none : bool)
         (prod : Product.t) (changerec : ChangeRecord.t) (idx_change : IndexChange.t),
    index_change prod changerec = Ok idx_change ->
    let encoder := Storage.json_encoder json_timestamp omit_none in
    let text :=
      ChangelogRow.serialized_record (changelog_row posix_timestamp encoder idx_change) in
    let doc := Json.sort_keys (encoder changerec) in
    text = Json.dumps true (encoder changerec)
    /\ (forall fuel : nat,
          (Json.fuel_of doc <= fuel)%nat -> Json.loads fuel text = Some doc)
    /\ Json.keys_sorted doc
    /\ Json.same (encoder changerec) doc
    /\ (forall key : string,
          Json.get key doc <> None -> In key Storage.attribute_names)
    /\ Json.path ["product_id"] doc
       = Some (Json.JInt (ChangeRecord.product_id changerec))
    /\ Json.path ["timestamp"] doc
       = Some (Json.sort_keys (json_timestamp (ChangeRecord.timestamp changerec)))
    /\ Json.path ["action"] doc = Some (Json.JStr (ChangeRecord.action changerec))
    /\ Json.path ["category"] doc = Some (Json.JStr (ChangeRecord.category changerec))
    /\ match ChangeRecord.download_record changerec with
       | Some d =>
           Json.path ["download_record"; "dl_type"] doc
           = Some (Json.JStr (DownloadRecord.dl_type d))
           /\ match DownloadRecord.dl_new_bonus d with
              | Some b =>
                  Json.path ["download_record"; "dl_new_bonus"; "bonus_type"] doc
                  = Some (Json.JStr (BonusRecord.bonus_type b))
              | None =>
                  Json.path ["download_record"; "dl_new_bonus"] doc
                  = Storage.absent omit_none
              end
           /\ match DownloadRecord.dl_old_bonus d with
              | Some b =>
                  Json.path ["download_record"; "dl_old_bonus"; "bonus_type"] doc
                  = Some (Json.JStr (BonusRecord.bonus_type b))
              | None =>
                  Json.path ["download_record"; "dl_old_bonus"] doc
                  = Storage.absent omit_none
              end
       | None => Json.path ["download_record"] doc = Storage.absent omit_none
       end
    /\ match ChangeRecord.property_record changerec with
       | Some p =>
           Json.path ["property_record"; "property_name"] doc
           = Some (Json.JStr (PropertyRecord.property_name p))
       | None => Json.path ["property_record"] doc = Storage.absent omit_none
       end
    /\ keep non_ascii text
       = String.concat "" (map (keep non_ascii) (Json.texts doc))
    /\ (forall a : ascii, non_ascii a = true -> Json.escape_char a = String a "").
Proof.
  intros posix_timestamp json_timestamp omit_none prod changerec idx_change Hidx
         encoder text doc.
  destruct (index_change_copies prod changerec idx_change Hidx)
    as (_ & _ & _ & _ & _ & Hrec).
  assert (Htext : text = Json.dumps true (encoder changerec)).
  { subst text. unfold changelog_row; cbn [ChangelogRow.serialized_record].
    rewrite Hrec. reflexivity. }
  split; [exact Htext|].
  split; [intros fuel Hfuel; rewrite Htext; exact (loads_dumps true _ fuel Hfuel)|].
  split; [apply sort_keys_sorted|].
  split; [apply sort_keys_same|].
  split; [intro key; apply record_keys|].
  assert (Hascii : keep non_ascii text
                   = String.concat "" (map (keep non_ascii) (Json.texts doc))).
  { rewrite Htext. apply keep_encode. }
  clear Hidx Hrec Htext. subst text doc encoder.
  destruct changerec as [id ts act cat dl pr].
  repeat match goal with
  | |- _ /\ _ => split
  end;
    try exact Hascii;
    try (intros a Ha; apply escape_char_copies, non_ascii_not_escaped, Ha);
    clear Hascii;
    cbn [ChangeRecord.product_id ChangeRecord.timestamp ChangeRecord.action
         ChangeRecord.category ChangeRecord.download_record
         ChangeRecord.property_record];
    destruct omit_none, dl as [[ty [nb|] [ob|]]|], pr as [p|];
    cbn [DownloadRecord.dl_type DownloadRecord.dl_new_bonus
         DownloadRecord.dl_old_bonus];
    repeat match goal with
    | |- _ /\ _ => split
    end;
    reflexivity.
Qed.

(** * The statements at the sample data *)


Lemma sale_rank_projection_witness :
  Product.rank_bestselling Sample.ranked = Some 1
  /\ ProductsRow.sale_rank
       (product_row Sample.normalize_search Sample.compress_systems Sample.ranked 3)
     = 3.
Proof.
  split; [reflexivity|].
  exact (proj1 (proj2 (sale_rank_projection Sample.normalize_search
                         Sample.compress_systems Sample.ranked 3)) eq_refl).
Defined.

Lemma absent_product_skipped_witness :
  Storage.product Sample.store 2 = None
  /\ index_id Sample.normalize_search Sample.compress_systems
       Sample.posix_timestamp Sample.json_encoder Sample.store 3 2 Sample.in_transaction
     = (Ok tt, Sample.in_transaction).
Proof.
  split; [reflexivity|].
  exact (proj1 (absent_product_skipped Sample.normalize_search Sample.compress_systems
                  Sample.posix_timestamp Sample.json_encoder Sample.store 3 2 eq_refl)
           Sample.in_transaction).
Defined.

Lemma absent_changelog_keeps_product_witness :
  Storage.product Sample.store 3 = Some Sample.second
  /\ Storage.changelog Sample.store 3 = None
  /\ id_trace Sample.normalize_search Sample.compress_systems
       Sample.posix_timestamp Sample.json_encoder Sample.store 3 3
     = ([INSERT_INTO_products
           (ProductsRow.mk 3 "Thronebreaker" "logo3" "game" "windows" 2 "Thronebreaker")],
        None).
Proof.
  split; [reflexivity|]. split; [reflexivity|].
  exact (proj1 (proj2 (absent_changelog_keeps_product Sample.normalize_search
                         Sample.compress_systems Sample.posix_timestamp Sample.json_encoder
                         Sample.store 3 3 Sample.second eq_refl eq_refl))).
Defined.

(** Two records at the same timestamp, of categories [download] and
    [property]: one summary row, with categories [download,property]. *)
Lemma summary_rows_per_timestamp_witness :
  forallb payload_present [Sample.download_plain; Sample.property_change] = true
  /\ expected_summary_rows Sample.posix_timestamp Sample.ranked
       [Sample.download_plain; Sample.property_change]
     = [SummaryRow.mk 1 "Gwent" (Sample.posix_timestamp 1000) "download,property"]
  /\ option_map Db.t_summary
       (Conn.txn
          (snd (index_changelog Sample.posix_timestamp Sample.json_encoder Sample.ranked
                  [Sample.download_plain; Sample.property_change]
                  (Conn.mk Db.empty
                     (Some (Db.mk (Some []) (Some []) (Some []) Sample.schema_indexes))
                     None))))
     = Some (Some [SummaryRow.mk 1 "Gwent" (Sample.posix_timestamp 1000)
                     "download,property"]).
Proof.
  split; [reflexivity|]. split; [reflexivity|].
  rewrite (proj2 (proj2 (proj2 (proj2 (proj2
             (summary_rows_per_timestamp Sample.posix_timestamp Sample.json_encoder
                Sample.ranked [Sample.download_plain; Sample.property_change])))))
             eq_refl Db.empty [] [] [] Sample.schema_indexes).
  reflexivity.
Defined.

(** The claim C5 fails on a download record whose payload attribute is
    [None]: the projection raises [AttributeError] instead of leaving the
    category-specific fields null, and the rebuild of a store holding
    such a record is aborted. *)
Lemma download_without_payload_aborts :
  ChangeRecord.category Sample.download_without_payload = "download"
  /\ ChangeRecord.download_record Sample.download_without_payload = None
  /\ index_change Sample.ranked Sample.download_without_payload = Raise AttributeError
  /\ index_main Sample.normalize_search Sample.compress_systems
       Sample.posix_timestamp Sample.json_encoder
       Sample.broken_store (Some Sample.old_index) None
     = (Raise AttributeError, Sample.old_index).
Proof. repeat split. Qed.

Lemma index_change_total_on_payload_witness :
  payload_present Sample.download_plain = true
  /\ (exists idx_change,
        index_change Sample.ranked Sample.download_plain = Ok idx_change)
  /\ exists idx_change,
       index_change Sample.ranked Sample.build_change = Ok idx_change
       /\ ChangelogRow.dl_type
            (changelog_row Sample.posix_timestamp Sample.json_encoder idx_change) = None
       /\ ChangelogRow.bonus_type
            (changelog_row Sample.posix_timestamp Sample.json_encoder idx_change) = None
       /\ ChangelogRow.property_name
            (changelog_row Sample.posix_timestamp Sample.json_encoder idx_change) = None.
Proof.
  split; [reflexivity|].
  split.
  { exact (proj1 (index_change_total_on_payload Sample.normalize_search
                    Sample.compress_systems Sample.posix_timestamp Sample.json_encoder)
             Sample.ranked Sample.download_plain eq_refl). }
  refine (proj1 (proj2 (index_change_total_on_payload Sample.normalize_search
                          Sample.compress_systems Sample.posix_timestamp
                          Sample.json_encoder))
            Sample.ranked Sample.build_change _ _);
    discriminate.
Defined.

Lemma bonus_type_old_wins_witness :
  exists idx_change,
    index_change Sample.ranked Sample.download_both = Ok idx_change
    /\ ChangelogRow.bonus_type
         (changelog_row Sample.posix_timestamp Sample.json_encoder idx_change)
       = Some "audio".
Proof.
  exact (bonus_type_old_wins Sample.posix_timestamp Sample.json_encoder
           Sample.ranked Sample.download_both
           (DownloadRecord.mk "bonus" (Some Sample.wallpaper) (Some Sample.soundtrack))
           Sample.wallpaper Sample.soundtrack eq_refl eq_refl eq_refl eq_refl).
Defined.

Lemma bonus_type_single_witness :
  exists idx_change,
    index_change Sample.ranked Sample.download_new = Ok idx_change
    /\ ChangelogRow.dl_type
         (changelog_row Sample.posix_timestamp Sample.json_encoder idx_change)
       = Some "bonus"
    /\ ChangelogRow.bonus_type
         (changelog_row Sample.posix_timestamp Sample.json_encoder idx_change)
       = Some "wallpapers".
Proof.
  destruct (bonus_type_single Sample.posix_timestamp Sample.json_encoder
              Sample.ranked Sample.download_new
              (DownloadRecord.mk "bonus" (Some Sample.wallpaper) None)
              eq_refl eq_refl) as (idx & Hidx & Hdl & Hnew & _).
  exists idx. split; [exact Hidx|]. split; [exact Hdl|].
  exact (Hnew Sample.wallpaper eq_refl eq_refl).
Defined.


Lemma serialized_record_canonical_witness :
  exists idx_change,
    index_change Sample.ranked Sample.escaped_property = Ok idx_change
    /\ ChangelogRow.serialized_record
         (changelog_row Sample.posix_timestamp Sample.json_encoder idx_change)
       = Sample.escaped_text
    /\ Json.loads 9 Sample.escaped_text
       = Some (Json.JDict
                 [("action", Json.JStr "change");
                  ("category", Json.JStr "property");
                  ("download_record", Json.JNull);
                  ("product_id", Json.JInt 7);
                  ("property_record",
                    Json.JDict
                      [("property_name",
                         Json.JStr
                           (String Json.dquote
                              (String Json.backslash
                                 (String "010"%char Sample.e_acute))))]);
                  ("timestamp", Json.JStr "1000")])
    /\ keep non_ascii Sample.escaped_text = Sample.e_acute.
Proof.
  destruct (index_change Sample.ranked Sample.escaped_property) as [idx|e] eqn:Hidx;
    [|discriminate Hidx].
  exists idx. split; [reflexivity|].
  destruct (serialized_record_canonical Sample.posix_timestamp Sample.json_timestamp
              false Sample.ranked Sample.escaped_property idx Hidx)
    as (Htext & Hloads & _ & _ & _ & _ & _ & _ & _ & _ & _ & Hkeep & _).
  rewrite Htext in Hloads, Hkeep.
  split; [etransitivity; [exact Htext | reflexivity]|].
  split; [|exact Hkeep].
  apply (Hloads 9%nat). vm_compute. lia.
Defined.

(** * The further properties at the sample data *)

Lemma rebuild_tables_witness :
  schema_ready Sample.old_index = true
  /\ completes Sample.normalize_search Sample.compress_systems
       Sample.posix_timestamp Sample.json_encoder Sample.store = true
  /\ Db.t_products
       (snd (index_main Sample.normalize_search Sample.compress_systems
               Sample.posix_timestamp Sample.json_encoder
               Sample.store (Some Sample.old_index) None))
     = Some [ProductsRow.mk 1 "Gwent" "logo1" "game" "windows,osx" 3 "Gwent";
             ProductsRow.mk 3 "Thronebreaker" "logo3" "game" "windows" 2 "Thronebreaker"].
Proof.
  split; [reflexivity|]. split; [reflexivity|].
  rewrite (rebuild_tables Sample.normalize_search Sample.compress_systems
             Sample.posix_timestamp Sample.json_encoder
             Sample.store Sample.old_index eq_refl eq_refl).
  reflexivity.
Defined.

Lemma printed_counts_witness :
  exists n_products n_changelog n_summaries : nat,
    fst (index_main Sample.normalize_search Sample.compress_systems
           Sample.posix_timestamp Sample.json_encoder
           Sample.store (Some Sample.old_index) None)
    = Ok (Z.of_nat n_products, Z.of_nat n_changelog, Z.of_nat n_summaries)
    /\ (n_products <= 3)%nat
    /\ (n_summaries <= n_changelog)%nat.
Proof.
  destruct (printed_counts Sample.normalize_search Sample.compress_systems
              Sample.posix_timestamp Sample.json_encoder
              Sample.store Sample.old_index eq_refl eq_refl)
    as (np & nc & ns & Hf & _ & _ & _ & _ & Hp & Hs).
  exists np, nc, ns. split; [exact Hf|]. split; [exact Hp | exact Hs].
Defined.

Lemma broken_record_aborts_witness :
  In 1 (Storage.ids Sample.broken_store)
  /\ has_broken_record Sample.broken_store 1
  /\ index_main Sample.normalize_search Sample.compress_systems
       Sample.posix_timestamp Sample.json_encoder
       Sample.broken_store (Some Sample.old_index) None
     = (Raise AttributeError, Sample.old_index).
Proof.
  assert (Hin : In 1 (Storage.ids Sample.broken_store)) by (left; reflexivity).
  assert (Hbad : has_broken_record Sample.broken_store 1).
  { exists Sample.ranked, [Sample.property_change; Sample.download_without_payload],
           Sample.download_without_payload.
    split; [reflexivity|]. split; [reflexivity|].
    split; [right; left; reflexivity | reflexivity]. }
  split; [exact Hin|]. split; [exact Hbad|].
  exact (proj2 (proj2 (broken_record_aborts Sample.normalize_search
                         Sample.compress_systems Sample.posix_timestamp Sample.json_encoder
                         Sample.broken_store 1 Hin Hbad Sample.old_index None))
           eq_refl).
Defined.

Lemma index_changelog_stops_at_broken_witness :
  fst (index_changelog Sample.posix_timestamp Sample.json_encoder Sample.ranked
         ([Sample.property_change] ++ Sample.download_without_payload
                                      :: [Sample.build_change])
         (Conn.mk Db.empty
            (Some (Db.mk (Some []) (Some []) (Some []) Sample.schema_indexes)) None))
  = Raise AttributeError.
Proof.
  rewrite (proj1 (index_changelog_stops_at_broken Sample.posix_timestamp Sample.json_encoder
                    Sample.ranked [Sample.property_change]
                    Sample.download_without_payload [Sample.build_change]
                    eq_refl eq_refl Db.empty [] [] [] Sample.schema_indexes)).
  reflexivity.
Defined.

Lemma missing_table_blocks_rebuild_witness :
  schema_ready Db.empty = false
  /\ index_main Sample.normalize_search Sample.compress_systems
       Sample.posix_timestamp Sample.json_encoder Sample.store (Some Db.empty) None
     = (Raise OperationalError, Db.empty).
Proof.
  split; [reflexivity|].
  exact (proj2 (proj2 (missing_table_blocks_rebuild Sample.normalize_search
                         Sample.compress_systems Sample.posix_timestamp Sample.json_encoder
                         Sample.store Db.empty None eq_refl))).
Defined.

Lemma interrupted_creation_is_permanent_witness :
  (1 <= 2)%nat
  /\ schema_ready
       (snd (index_main Sample.normalize_search Sample.compress_systems
               Sample.posix_timestamp Sample.json_encoder Sample.store None (Some 1%nat)))
     = false.
Proof.
  assert (H : (1 <= 2)%nat) by lia.
  split; [exact H|].
  exact (proj1 (interrupted_creation_is_permanent Sample.normalize_search
                  Sample.compress_systems Sample.posix_timestamp Sample.json_encoder
                  Sample.store 1%nat H)).
Defined.

Lemma init_db_needs_empty_witness :
  Db.has_table tbl_products Sample.old_index = true
  /\ Conn.durable (snd (init_db (Conn.mk Sample.old_index None None)))
     = Sample.old_index.
Proof.
  split; [reflexivity|].
  exact (proj1 (proj2 (init_db_needs_empty Sample.old_index None)) eq_refl).
Defined.

Lemma first_run_creates_and_fills_witness :
  completes Sample.normalize_search Sample.compress_systems
    Sample.posix_timestamp Sample.json_encoder Sample.store = true
  /\ Db.indexes
       (snd (index_main Sample.normalize_search Sample.compress_systems
               Sample.posix_timestamp Sample.json_encoder Sample.store None None))
     = Sample.schema_indexes.
Proof.
  split; [reflexivity|].
  rewrite (proj1 (first_run_creates_and_fills Sample.normalize_search
                    Sample.compress_systems Sample.posix_timestamp Sample.json_encoder
                    Sample.store eq_refl)).
  reflexivity.
Defined.

Lemma category_selects_payload_witness :
  exists idx_change,
    index_change Sample.ranked Sample.property_change = Ok idx_change
    /\ ChangelogRow.property_name
         (changelog_row Sample.posix_timestamp Sample.json_encoder idx_change)
       = Some "title".
Proof.
  destruct (index_change Sample.ranked Sample.property_change) as [idx|e] eqn:Hidx;
    [|discriminate Hidx].
  exists idx. split; [reflexivity|].
  exact (proj1 (proj1 (category_selects_payload Sample.posix_timestamp Sample.json_encoder
                         Sample.ranked Sample.property_change idx Hidx) eq_refl)).
Defined.

Lemma sale_rank_order_witness :
  ProductsRow.sale_rank
    (product_row Sample.normalize_search Sample.compress_systems Sample.second 3)
  < ProductsRow.sale_rank
      (product_row Sample.normalize_search Sample.compress_systems Sample.ranked 3).
Proof.
  apply (proj1 (sale_rank_order Sample.normalize_search Sample.compress_systems
                  Sample.ranked Sample.second 3 1 2 eq_refl eq_refl)).
  reflexivity.
Defined.

Lemma dumps_canonical_witness :
  Json.dumps true (Json.JDict [("b", Json.JInt 1); ("a", Json.JStr "x")])
  = Json.dumps true (Json.JDict [("a", Json.JStr "x"); ("b", Json.JInt 1)]).
Proof.
  apply dumps_canonical.
  - cbn. split; [|tauto].
    constructor; [intros [H|[]]; discriminate H|].
    constructor; [intros []|constructor].
  - eapply Json.same_dict; [|apply perm_swap].
    constructor; [split; [reflexivity | constructor]|].
    constructor; [split; [reflexivity | constructor]|constructor].
Defined.

Lemma failure_after_commit_witness :
  index_main Sample.normalize_search Sample.compress_systems
    Sample.posix_timestamp Sample.json_encoder Sample.store (Some Sample.old_index)
    (Some (S (List.length
                (txn_body Sample.normalize_search Sample.compress_systems
                   Sample.posix_timestamp Sample.json_encoder Sample.store) + 1)))
  = (Raise OperationalError,
     rebuilt Sample.normalize_search Sample.compress_systems
       Sample.posix_timestamp Sample.json_encoder Sample.store Sample.old_index).
Proof.
  destruct (failure_after_commit Sample.normalize_search Sample.compress_systems
              Sample.posix_timestamp Sample.json_encoder
              Sample.store Sample.old_index 0%nat eq_refl eq_refl) as (Hs & Hf & _).
  rewrite (surjective_pairing (index_main _ _ _ _ _ _ _)).
  rewrite Hs, Hf by lia. reflexivity.
Defined.


